(** * Metriscope: the exposition parser and the metric index of [main.py]

    A shallow embedding of [MetricsExplorer] (fetch_metrics, group_metrics,
    search_metrics, show_metric_details) and the properties of its
    specification.

    Modelling conventions.
    - A Python [str] is a [string]: a sequence of code points below 256.
      The character classes used by the program ([str.strip], [str.lower],
      the regex class [\w]) are written out for that range.
    - A Python [dict] used as a map is a [gmap], a [set] is a [gset].
    - A Python exception is a value of [exn]; code that may raise returns a
      [result].
    - [float(...)] is a builtin of the language, not code of the program: it
      is a parameter of the development ([None] stands for its ValueError).
    - [requests.get] is the outside world: the n-th request of a run is
      answered by [server n]. *)

From Stdlib Require Import Ascii String.
From stdpp Require Import gmap strings list fin_maps.
From Equations Require Import Equations.

Local Open Scope string_scope.
Local Open Scope list_scope.

(** ** Python string primitives *)

Module Py.

(** The double quote character (code 34). *)
Definition dquote : ascii := "034"%char.

(** [s.startswith(p)] *)
Fixpoint startswith (p s : string) : bool :=
  match p, s with
  | EmptyString, _ => true
  | String a p', String b s' => if Ascii.eqb a b then startswith p' s' else false
  | String _ _, EmptyString => false
  end.

(** [s[n:]] for a non-negative [n] *)
Fixpoint drop_str (n : nat) (s : string) : string :=
  match n, s with
  | O, _ => s
  | S n', String _ s' => drop_str n' s'
  | S _, EmptyString => EmptyString
  end.

(** [s[:n]] for a non-negative [n] *)
Fixpoint take_str (n : nat) (s : string) : string :=
  match n, s with
  | O, _ => EmptyString
  | S n', String c s' => String c (take_str n' s')
  | S _, EmptyString => EmptyString
  end.

(** [s[a:b]] for non-negative bounds: empty as soon as [b <= a]. *)
Definition slice (a b : nat) (s : string) : string :=
  take_str (b - a) (drop_str a s).

(** [c in s] for a one-character [c] *)
Fixpoint char_in (c : ascii) (s : string) : bool :=
  match s with
  | EmptyString => false
  | String d s' => if Ascii.eqb c d then true else char_in c s'
  end.

(** [s.index(c)]: the position of the first [c]; [None] is ValueError. *)
Fixpoint index (c : ascii) (s : string) : option nat :=
  match s with
  | EmptyString => None
  | String d s' => if Ascii.eqb c d then Some 0 else S <$> index c s'
  end.

(** [s.rindex(c)]: the position of the last [c]; [None] is ValueError. *)
Fixpoint rindex (c : ascii) (s : string) : option nat :=
  match s with
  | EmptyString => None
  | String d s' =>
      match rindex c s' with
      | Some j => Some (S j)
      | None => if Ascii.eqb c d then Some 0 else None
      end
  end.

(** [s.split(sep)] with an explicit one-character separator: every
    occurrence splits, and the result is never empty. *)
Fixpoint split (sep : ascii) (s : string) : list string :=
  match s with
  | EmptyString => [EmptyString]
  | String c s' =>
      if Ascii.eqb c sep then EmptyString :: split sep s'
      else match split sep s' with
           | tok :: toks => String c tok :: toks
           | [] => [String c EmptyString]
           end
  end.

(** [s.split(sep, 1)]: at most one split, at the first separator. *)
Fixpoint split1 (sep : ascii) (s : string) : list string :=
  match s with
  | EmptyString => [EmptyString]
  | String c s' =>
      if Ascii.eqb c sep then [EmptyString; s']
      else match split1 sep s' with
           | tok :: toks => String c tok :: toks
           | [] => [String c EmptyString]
           end
  end.

Definition in_range (lo hi : nat) (c : ascii) : bool :=
  ((lo <=? nat_of_ascii c) && (nat_of_ascii c <=? hi))%nat.

(** [c.isspace()] on code points below 256. *)
Definition isspace (c : ascii) : bool :=
  in_range 9 13 c || in_range 28 32 c
  || (nat_of_ascii c =? 133)%nat || (nat_of_ascii c =? 160)%nat.

Fixpoint lstrip (s : string) : string :=
  match s with
  | EmptyString => EmptyString
  | String c s' => if isspace c then lstrip s' else s
  end.

Fixpoint rstrip (s : string) : string :=
  match s with
  | EmptyString => EmptyString
  | String c s' =>
      match rstrip s' with
      | EmptyString => if isspace c then EmptyString else String c EmptyString
      | t => String c t
      end
  end.

(** [s.strip()] *)
Definition strip (s : string) : string := rstrip (lstrip s).

(** Truth value of a string: non-empty. *)
Definition truthy (s : string) : bool :=
  match s with EmptyString => false | String _ _ => true end.

(** [c.lower()] on code points below 256: A-Z, and the upper case letters
    of 192..222 except the multiplication sign 215. *)
Definition lower_char (c : ascii) : ascii :=
  let n := nat_of_ascii c in
  if in_range 65 90 c || (in_range 192 222 c && negb (n =? 215)%nat)
  then ascii_of_nat (n + 32) else c.

Fixpoint lower (s : string) : string :=
  match s with
  | EmptyString => EmptyString
  | String c s' => String (lower_char c) (lower s')
  end.

(** [sub in s] for strings: [sub] occurs in [s] as a substring. *)
Fixpoint contains (sub s : string) : bool :=
  startswith sub s
  || match s with
     | EmptyString => false
     | String _ s' => contains sub s'
     end.

(** The regex class [\w] of a str pattern on code points below 256:
    alphanumeric characters and the underscore. *)
Definition is_word (c : ascii) : bool :=
  let n := nat_of_ascii c in
  in_range 48 57 c || in_range 65 90 c || in_range 97 122 c
  || (n =? 95)%nat || (n =? 170)%nat || (n =? 178)%nat || (n =? 179)%nat
  || (n =? 181)%nat || (n =? 185)%nat || (n =? 186)%nat
  || in_range 188 190 c
  || in_range 192 214 c || in_range 216 246 c || in_range 248 255 c.

(** The longest prefix of [s] whose characters satisfy [p], and the rest. *)
Fixpoint span (p : ascii -> bool) (s : string) : string * string :=
  match s with
  | EmptyString => (EmptyString, EmptyString)
  | String c s' =>
      if p c then let '(a, b) := span p s' in (String c a, b)
      else (EmptyString, s)
  end.

Definition not_dquote (c : ascii) : bool := negb (Ascii.eqb c dquote).

(** One match of the label pattern anchored at the start of [s]: a
    non-empty run of word characters (group 1), an equals sign, a double
    quote, a run of characters other than the double quote (group 2) and a
    double quote. The result is the two groups and the text after the
    match. Both repetitions are greedy, and giving characters back never
    helps: after a shorter key the next character is a word character, not
    an equals sign; after a shorter value it is not a double quote. *)
Definition label_pair_at (s : string) : option (string * string * string) :=
  match span is_word s with
  | (EmptyString, _) => None
  | (key, String e (String q rest)) =>
      if Ascii.eqb e "="%char && Ascii.eqb q dquote then
        match span not_dquote rest with
        | (value, String _ rest') => Some (key, value, rest')
        | (_, EmptyString) => None
        end
      else None
  | _ => None
  end.

End Py.

(** ** [re.findall] for the label pattern *)

Lemma span_length p s :
  String.length (Py.span p s).1 + String.length (Py.span p s).2
  = String.length s.
Proof.
  induction s as [|c s IH]; simpl; [done|].
  destruct (p c); [|done].
  destruct (Py.span p s) as [a b]; simpl in *. lia.
Qed.

Lemma label_pair_at_shorter s key value rest :
  Py.label_pair_at s = Some (key, value, rest) ->
  String.length rest < String.length s.
Proof.
  unfold Py.label_pair_at. intros H.
  pose proof (span_length Py.is_word s) as L1.
  destruct (Py.span Py.is_word s) as [k r1]; simpl in L1.
  destruct k as [|k0 k]; [done|].
  destruct r1 as [|e [|q r2]]; try done.
  destruct (Ascii.eqb e "=" && Ascii.eqb q Py.dquote); [|done].
  pose proof (span_length Py.not_dquote r2) as L2.
  destruct (Py.span Py.not_dquote r2) as [v r3]; simpl in L2.
  destruct r3 as [|q' r4]; [done|].
  injection H as <- <- <-. simpl in *. lia.
Qed.

(** A value together with the equation that says where it came from. *)
Definition inspect {A : Type} (x : A) : {y : A | x = y} := exist _ x eq_refl.

(** [re.findall(pattern, s)] for the label pattern: the matches from left
    to right, none overlapping another; the scan resumes after a match, and
    one character further where there is none. *)
Equations? findall (s : string) : list (string * string)
  by wf (String.length s) lt :=
  findall EmptyString := [];
  findall (String c s') with inspect (Py.label_pair_at (String c s')) := {
    | exist _ (Some (key, value, rest)) Hm => (key, value) :: findall rest;
    | exist _ None _ => findall s' }.
Proof.
  apply label_pair_at_shorter in Hm. exact Hm.
Qed.

(** ** Exceptions *)

Inductive exn : Type :=
| ValueError        (* raised in the try block: a bad unpacking, [rindex] on
                       an absent character, a bad float *)
| IndexError        (* a subscript past the end of a list *)
| RequestException. (* whatever [requests.get] or [raise_for_status] raised;
                       the library derives some of these classes from
                       ValueError too (an invalid URL), so this constructor
                       says where the exception came from, not its class *)

Inductive result (A : Type) : Type :=
| Ok (a : A)
| Raise (e : exn).
Arguments Ok {A} a.
Arguments Raise {A} e.

(** Sequencing: an exception ends the computation. *)
#[global] Instance result_bind : MBind result := fun A B k r =>
  match r with
  | Ok a => k a
  | Raise e => Raise e
  end.

(** A builtin that signals failure with ValueError. *)
Definition or_ValueError {A : Type} (o : option A) : result A :=
  match o with
  | Some a => Ok a
  | None => Raise ValueError
  end.

(** [l[i]] on a list: IndexError past the end. *)
Definition subscript {A : Type} (l : list A) (i : nat) : result A :=
  match l !! i with
  | Some a => Ok a
  | None => Raise IndexError
  end.

(** ** The explorer *)

Section Explorer.

(** The values of the language's floats, and the builtin [float] on
    strings ([None]: ValueError). *)
Context {F : Type}.
Variable float : string -> option F.

(** The text the exporter answers to the n-th request of the run; [None]
    when the request fails (no answer, or an error status). *)
Variable server : nat -> option string.

(** One element of the list built by fetch_metrics: the tuple
    (metric_name, value, labels, help_text). *)
Record metric : Type := Metric {
  metric_name : string;
  value : F;
  labels : gmap string string;
  help_text : string
}.

(** One value of help_cache: the dict with the keys help and type. *)
Record meta : Type := Meta {
  meta_help : string;
  meta_type : string
}.

(** The instance: metrics_cache ([None] until a fetch has been stored) and
    help_cache. [requests] counts the requests sent so far, which is the
    index of the next answer of the server. *)
Record explorer : Type := Explorer {
  metrics_cache : option (list metric);
  help_cache : gmap string meta;
  requests : nat
}.

(** [MetricsExplorer(host, port)] *)
Definition init : explorer :=
  {| metrics_cache := None; help_cache := ∅; requests := 0 |}.

(** The labels of a name part that contains an opening brace, and the
    metric name before it (lines 38 to 43). *)
Definition parse_labelled (name_part : string)
  : result (string * gmap string string) :=
  i ← or_ValueError (Py.index "{" name_part);
  let metric_name := Py.take_str i name_part in
  j ← or_ValueError (Py.rindex "}" name_part);
  let labels_str := Py.slice (i + 1) j name_part in
  Ok (metric_name,
      foldl (fun labels label_pair => <[label_pair.1 := label_pair.2]> labels)
            ∅ (findall labels_str)).

(** The body of the try block up to the construction of the tuple (lines
    33 to 47): the name, the value and the labels of a sample line. *)
Definition parse_sample (line : string)
  : result (string * F * gmap string string) :=
  match Py.split " " line with
  | [name_part; value_str] =>
      nl ← (if Py.char_in "{" name_part then parse_labelled name_part
            else Ok (name_part, ∅));
      v ← or_ValueError (float value_str);
      Ok (nl.1, v, nl.2)
  | _ => Raise ValueError
  end.

(** The local variables of fetch_metrics. *)
Record locals : Type := Locals {
  metrics : list metric;
  current_help : string;
  current_type : string
}.

(** One iteration of the loop over the lines (lines 26 to 56). An
    exception of the try block is caught and the line is left; one of the
    HELP and TYPE branches is not. *)
Definition step (lo : locals) (hc : gmap string meta) (line : string)
  : result (locals * gmap string meta) :=
  if Py.startswith "# HELP " line then
    h ← subscript (Py.split1 " " (Py.drop_str 7 line)) 1;
    Ok (Locals (metrics lo) h (current_type lo), hc)
  else if Py.startswith "# TYPE " line then
    t ← subscript (Py.split1 " " (Py.drop_str 7 line)) 1;
    Ok (Locals (metrics lo) (current_help lo) t, hc)
  else if negb (Py.startswith "#" line) && Py.truthy (Py.strip line) then
    match parse_sample line with
    | Ok (name, v, lbls) =>
        let lo' := Locals (metrics lo ++ [Metric name v lbls (current_help lo)])%list
                          (current_help lo) (current_type lo) in
        let hc' := match hc !! name with
                   | None => <[name := Meta (current_help lo) (current_type lo)]> hc
                   | Some _ => hc
                   end in
        Ok (lo', hc')
    | Raise _ => Ok (lo, hc)
    end
  else Ok (lo, hc).

(** The loop. When a line raises, the exception leaves the loop; the
    entries already stored in help_cache stay. *)
Fixpoint for_lines (lines : list string) (lo : locals) (hc : gmap string meta)
  : result locals * gmap string meta :=
  match lines with
  | [] => (Ok lo, hc)
  | line :: rest =>
      match step lo hc line with
      | Ok (lo', hc') => for_lines rest lo' hc'
      | Raise e => (Raise e, hc)
      end
  end.

(** The parse of a text that has been received (lines 21 to 58). *)
Definition parse (text : string) (hc : gmap string meta)
  : result (list metric) * gmap string meta :=
  let '(r, hc') :=
    for_lines (Py.split "010" text) (Locals [] EmptyString EmptyString) hc in
  (lo ← r; Ok (metrics lo), hc').

Definition fetch_metrics (self : explorer) : result (list metric) * explorer :=
  match server (requests self) with
  | None =>
      (Raise RequestException,
       Explorer (metrics_cache self) (help_cache self) (S (requests self)))
  | Some text =>
      let '(r, hc) := parse text (help_cache self) in
      (r, Explorer (metrics_cache self) hc (S (requests self)))
  end.

(** Truth value of metrics_cache: false for None and for the empty list. *)
Definition cache_truthy (c : option (list metric)) : bool :=
  match c with
  | Some (_ :: _) => true
  | _ => false
  end.

(** The first two lines of each query: fetch when metrics_cache is false,
    then go on with the list that metrics_cache holds. *)
Definition ensure_cache (self : explorer) : result (list metric) * explorer :=
  if cache_truthy (metrics_cache self) then
    (Ok (default [] (metrics_cache self)), self)
  else
    match fetch_metrics self with
    | (Ok ms, self') =>
        (Ok ms, Explorer (Some ms) (help_cache self') (requests self'))
    | (Raise e, self') => (Raise e, self')
    end.

(** [metric_name.split('_')[0]] *)
Definition group_of (name : string) : string :=
  default EmptyString (head (Py.split "_" name)).

(** The loop of group_metrics (lines 65 to 72). *)
Definition group_step (groups : gmap string (list string)) (m : metric)
  : gmap string (list string) :=
  let group := group_of (metric_name m) in
  let groups1 := match groups !! group with
                 | None => <[group := []]> groups
                 | Some _ => groups
                 end in
  let names := default [] (groups1 !! group) in
  if bool_decide (metric_name m ∈ names) then groups1
  else <[group := (names ++ [metric_name m])%list]> groups1.

Definition group_loop (ms : list metric) : gmap string (list string) :=
  foldl group_step ∅ ms.

Definition group_metrics (self : explorer)
  : result (gmap string (list string)) * explorer :=
  match ensure_cache self with
  | (Ok ms, self') => (Ok (group_loop ms), self')
  | (Raise e, self') => (Raise e, self')
  end.

(** The test of line 85. *)
Definition matches (search_term : string) (m : metric) : bool :=
  Py.contains (Py.lower search_term) (Py.lower (metric_name m))
  || Py.contains (Py.lower search_term) (Py.lower (help_text m)).

(** The loop of search_metrics (lines 81 to 88): results and seen. *)
Definition search_step (search_term : string)
    (acc : list (string * string * F) * gset string) (m : metric)
  : list (string * string * F) * gset string :=
  if matches search_term m then
    if bool_decide (metric_name m ∈ acc.2) then acc
    else ((acc.1 ++ [(metric_name m, help_text m, value m)])%list,
          {[metric_name m]} ∪ acc.2)
  else acc.

Definition search_loop (search_term : string) (ms : list metric)
  : list (string * string * F) :=
  (foldl (search_step search_term) ([], ∅) ms).1.

Definition search_metrics (search_term : string) (self : explorer)
  : result (list (string * string * F)) * explorer :=
  match ensure_cache self with
  | (Ok ms, self') => (Ok (search_loop search_term ms), self')
  | (Raise e, self') => (Raise e, self')
  end.

(** What show_metric_details prints, line by line. *)
Inductive printed : Type :=
| PDetailsFor (name : string)
| PRule
| PType (t : string)
| PHelp (h : string)
| PCurrentValues
| PValueLabels (v : F) (lbls : gmap string string)
| PValue (v : F)
| PNoValues.

(** The list comprehension of line 105, without the repeated name. *)
Definition values_of (name : string) (ms : list metric)
  : list (F * gmap string string) :=
  (λ m, (value m, labels m)) <$> filter (λ m, metric_name m = name) ms.

Definition print_value (vl : F * gmap string string) : printed :=
  if bool_decide (vl.2 = ∅) then PValue vl.1 else PValueLabels vl.1 vl.2.

(** Lines 97 to 114 on the cached list. *)
Definition details_lines (name : string) (hc : gmap string meta)
    (ms : list metric) : list printed :=
  ([PDetailsFor name; PRule]
   ++ match hc !! name with
      | Some e => [PType (meta_type e); PHelp (meta_help e)]
      | None => []
      end
   ++ [PCurrentValues]
   ++ match values_of name ms with
      | [] => [PNoValues]
      | vs => print_value <$> vs
      end)%list.

Definition show_metric_details (name : string) (self : explorer)
  : result (list printed) * explorer :=
  match ensure_cache self with
  | (Ok ms, self') => (Ok (details_lines name (help_cache self') ms), self')
  | (Raise e, self') => (Raise e, self')
  end.

End Explorer.

Arguments metric : clear implicits.
Arguments explorer : clear implicits.
Arguments printed : clear implicits.
Arguments locals : clear implicits.

(** ** The vocabulary of the specification *)

(** The third branch of the loop body: the line is neither a comment nor
    blank. *)
Definition sample_line (line : string) : bool :=
  negb (Py.startswith "#" line) && Py.truthy (Py.strip line).

(** The text of a HELP or TYPE line after the metric name. *)
Definition text_after_name (line : string) : string :=
  default EmptyString (Py.split1 " " (Py.drop_str 7 line) !! 1).

(** The text of the nearest line that starts with [marker] among the lines
    read so far ([read] lists them nearest first), whatever metric that
    line names; empty when there is none. *)
Fixpoint most_recent (marker : string) (read : list string) : string :=
  match read with
  | [] => EmptyString
  | line :: older =>
      if Py.startswith marker line then text_after_name line
      else most_recent marker older
  end.

(** Every character of [s] satisfies [p]. *)
Fixpoint all_chars (p : ascii -> bool) (s : string) : bool :=
  match s with
  | EmptyString => true
  | String c s' => p c && all_chars p s'
  end.

Definition not_word (c : ascii) : bool := negb (Py.is_word c).

(** A label list as it is written: each pair in the form key, equals
    sign, quoted value, after a separator. *)
Fixpoint written (items : list (string * string * string)) (tail : string)
  : string :=
  match items with
  | [] => tail
  | (sep, key, value) :: items' =>
      sep +:+ key +:+
        String "=" (String Py.dquote
          (value +:+ String Py.dquote (written items' tail)))
  end.

(** The separator holds no word character, the key is a non-empty run of
    word characters, the value holds no double quote. *)
Definition item_ok (item : string * string * string) : bool :=
  all_chars not_word item.1.1
  && Py.truthy item.1.2 && all_chars Py.is_word item.1.2
  && all_chars Py.not_dquote item.2.

(** The value that the last pair with the key [k] gives, if any. *)
Definition last_value (k : string) (pairs : list (string * string))
  : option string :=
  snd <$> last (filter (λ p, p.1 = k) pairs).

(** The value of a label as the specification words it: the characters up
    to the first double quote that no backslash escapes; the second
    component is the text from that quote on. *)
Fixpoint span_unescaped (s : string) : string * string :=
  match s with
  | EmptyString => (EmptyString, EmptyString)
  | String c s' =>
      if Ascii.eqb c Py.dquote then (EmptyString, s)
      else if Ascii.eqb c "\" then
        match s' with
        | EmptyString => (String c EmptyString, EmptyString)
        | String d s'' =>
            let '(a, b) := span_unescaped s'' in (String c (String d a), b)
        end
      else let '(a, b) := span_unescaped s' in (String c a, b)
  end.

(** The elements of [l] whose key did not occur before, in the order of
    [l]. *)
Fixpoint first_by {A : Type} (key : A -> string) (l : list A) : list A :=
  match l with
  | [] => []
  | x :: l' => x :: filter (λ y, key y ≠ key x) (first_by key l')
  end.

(** [sub] occurs in [s]. *)
Definition occurs (sub s : string) : Prop := ∃ a b, s = a +:+ sub +:+ b.

(** The prefix of a name in the words of the specification: the text
    before the first underscore, the whole name when it has none. *)
Definition leading_token (name : string) : string :=
  match Py.index "_" name with
  | Some i => Py.take_str i name
  | None => name
  end.

Section Vocabulary.

Context {F : Type}.
Variable float : string -> option F.

(** The three ways the decoding of a line fails in the code: the split on
    the space does not give two tokens, the label block is opened and never
    closed, the value is no float. Label text that is malformed in another
    way is no failure: findall passes over what is no pair. *)
Definition decode_fails (line : string) : Prop :=
  (∀ name_part value_str, Py.split " " line ≠ [name_part; value_str])
  ∨ ∃ name_part value_str,
      Py.split " " line = [name_part; value_str]
      ∧ ((Py.char_in "{" name_part = true ∧ Py.rindex "}" name_part = None)
         ∨ float value_str = None).

(** The name, value and labels of a line that is a sample line and that
    the decoder accepts. *)
Definition decoded (line : string)
  : option (string * F * gmap string string) :=
  if sample_line line then
    match parse_sample float line with
    | Ok nvl => Some nvl
    | Raise _ => None
    end
  else None.

(** The samples of a document in the words of the specification: one for
    each decoded line, in the order of the document, its help the text of
    the most recent HELP line before it. *)
Fixpoint samples_of (read lines : list string) : list (metric F) :=
  match lines with
  | [] => []
  | line :: rest =>
      match decoded line with
      | Some (name, v, lbls) =>
          Metric name v lbls (most_recent "# HELP " read)
          :: samples_of (line :: read) rest
      | None => samples_of (line :: read) rest
      end
  end.

(** The help and type in effect at the first sample of [name]. *)
Fixpoint first_context (name : string) (read lines : list string)
  : option meta :=
  match lines with
  | [] => None
  | line :: rest =>
      match decoded line with
      | Some (name', _, _) =>
          if bool_decide (name' = name)
          then Some (Meta (most_recent "# HELP " read)
                          (most_recent "# TYPE " read))
          else first_context name (line :: read) rest
      | None => first_context name (line :: read) rest
      end
  end.

(** The triple that search_metrics reports for a sample. *)
Definition triple (m : metric F) : string * string * F :=
  (metric_name m, help_text m, value m).

(** The samples that search reports, in the words of the specification:
    for each name the first sample of the list that matches the term. *)
Definition first_matches (term : string) (ms : list (metric F))
  : list (metric F) :=
  first_by metric_name (filter (λ m, matches term m = true) ms).

(** The distinct names of a prefix, in the order in which they first
    occur. *)
Definition names_of_prefix (p : string) (ms : list (metric F))
  : list string :=
  first_by id (filter (λ name, leading_token name = p) (metric_name <$> ms)).

(** The queries of the menu, their answers, and a run of queries that
    stops at the first exception. *)
Inductive query : Type :=
| QGroups
| QSearch (term : string)
| QDetails (name : string).

Inductive answer : Type :=
| AGroups (groups : gmap string (list string))
| AFound (results : list (string * string * F))
| APrinted (lines : list (printed F)).

Definition run_query (server : nat -> option string) (q : query)
    (self : explorer F) : result answer * explorer F :=
  match q with
  | QGroups =>
      match group_metrics float server self with
      | (Ok g, self') => (Ok (AGroups g), self')
      | (Raise e, self') => (Raise e, self')
      end
  | QSearch term =>
      match search_metrics float server term self with
      | (Ok l, self') => (Ok (AFound l), self')
      | (Raise e, self') => (Raise e, self')
      end
  | QDetails name =>
      match show_metric_details float server name self with
      | (Ok l, self') => (Ok (APrinted l), self')
      | (Raise e, self') => (Raise e, self')
      end
  end.

Fixpoint run_queries (server : nat -> option string) (qs : list query)
    (self : explorer F) : result (list answer) * explorer F :=
  match qs with
  | [] => (Ok [], self)
  | q :: qs' =>
      match run_query server q self with
      | (Ok a, self') =>
          match run_queries server qs' self' with
          | (Ok l, self'') => (Ok (a :: l), self'')
          | (Raise e, self'') => (Raise e, self'')
          end
      | (Raise e, self') => (Raise e, self')
      end
  end.

(** The answer to a query computed from a list of samples and a table of
    metadata, without any request. *)
Definition answer_on (ms : list (metric F)) (hc : gmap string meta)
    (q : query) : answer :=
  match q with
  | QGroups => AGroups (group_loop ms)
  | QSearch term => AFound (search_loop term ms)
  | QDetails name => APrinted (details_lines name hc ms)
  end.

End Vocabulary.

Arguments answer : clear implicits.

(** ** More vocabulary *)

(** The number of occurrences of a character in a string. *)
Fixpoint count_char (c : ascii) (s : string) : nat :=
  match s with
  | EmptyString => 0
  | String d s' => (if Ascii.eqb c d then 1 else 0) + count_char c s'
  end.


(** The text of a label pair: the key, an equals sign and the value
    between double quotes. *)
Definition pair_text (key value : string) : string :=
  key +:+ String "=" (String Py.dquote (value +:+ String Py.dquote EmptyString)).

(** Every sample of the cached list has an entry in help_cache. *)
Definition cached_names_have_metadata {F : Type} (self : explorer F) : Prop :=
  ∀ ms m, metrics_cache self = Some ms -> m ∈ ms ->
    is_Some (help_cache self !! metric_name m).

(** A HELP or TYPE line with no space after the marker and the name. *)
Definition marker_without_text (line : string) : Prop :=
  (Py.startswith "# HELP " line = true ∨ Py.startswith "# TYPE " line = true)
  ∧ Py.char_in " " (Py.drop_str 7 line) = false.


(** ** The menu *)

(** A dict as the language keeps it, for the places where the order of
    its items is seen: the items in the order in which their keys were
    first set. *)
Fixpoint items_get {V : Type} (k : string) (d : list (string * V))
  : option V :=
  match d with
  | [] => None
  | (k', v) :: d' => if bool_decide (k' = k) then Some v else items_get k d'
  end.

(** [d[k] = v]: the value of a key that is there is replaced in place, a
    new key goes to the end. *)
Fixpoint items_set {V : Type} (k : string) (v : V) (d : list (string * V))
  : list (string * V) :=
  match d with
  | [] => [(k, v)]
  | (k', v') :: d' =>
      if bool_decide (k' = k) then (k, v) :: d'
      else (k', v') :: items_set k v d'
  end.

(** The description column of the table of search results (line 139):
    the help text, cut after 100 characters and followed by three dots
    when it is longer. *)
Definition describe (help_text : string) : string :=
  if (100 <? String.length help_text)%nat
  then Py.take_str 100 help_text +:+ "..."
  else help_text.

Section Menu.

Context {F : Type}.
Variable float : string -> option F.
Variable server : nat -> option string.

(** The loop of group_metrics (lines 65 to 72) on the items of the dict,
    which is what the menu iterates over. *)
Definition group_items_step (groups : list (string * list string))
    (m : metric F) : list (string * list string) :=
  let group := group_of (metric_name m) in
  let groups1 := match items_get group groups with
                 | None => items_set group [] groups
                 | Some _ => groups
                 end in
  let names := default [] (items_get group groups1) in
  if bool_decide (metric_name m ∈ names) then groups1
  else items_set group (names ++ [metric_name m]) groups1.

Definition group_items (ms : list (metric F)) : list (string * list string) :=
  foldl group_items_step [] ms.

(** What the menu loop prints: the menu with its prompt (lines 119 to
    125), a group with its names (lines 130 to 132), the table of search
    results (lines 138 to 141), the line of an empty search (line 143) and
    the lines of show_metric_details. *)
Inductive shown : Type :=
| SMenu
| SGroup (group : string) (names : list string)
| SResults (table : list (string * string))
| SNoResults
| SDetails (lines : list (printed F)).

(** How the loop ends: by the choice 4, by an exception of a query, or by
    the EOFError of a read when nothing is left to read. *)
Inductive ending : Type :=
| Quit
| Crash (e : exn)
| EndOfInput.

(** The method interactive (lines 116 to 154) on the list of the lines
    the user types. [input] and [prompt] take the next line; the word list
    given to the completer (lines 148 and 149) only feeds the suggestions
    of the prompt and is left out. *)
Fixpoint interactive (inputs : list string) (self : explorer F)
  : list shown * ending * explorer F :=
  match inputs with
  | [] => ([SMenu], EndOfInput, self)
  | choice :: rest =>
      if String.eqb choice "1" then
        match ensure_cache float server self with
        | (Ok ms, self1) =>
            let '(out, e, self2) := interactive rest self1 in
            (SMenu :: ((λ g, SGroup g.1 g.2) <$> group_items ms) ++ out,
             e, self2)
        | (Raise e, self1) => ([SMenu], Crash e, self1)
        end
      else if String.eqb choice "2" then
        match rest with
        | [] => ([SMenu], EndOfInput, self)
        | search_term :: rest' =>
            match search_metrics float server search_term self with
            | (Ok results, self1) =>
                let '(out, e, self2) := interactive rest' self1 in
                (SMenu ::
                   match results with
                   | [] => SNoResults
                   | _ => SResults ((λ r, (r.1.1, describe r.1.2)) <$> results)
                   end :: out,
                 e, self2)
            | (Raise e, self1) => ([SMenu], Crash e, self1)
            end
        end
      else if String.eqb choice "3" then
        match ensure_cache float server self with
        | (Ok _, self1) =>
            match rest with
            | [] => ([SMenu], EndOfInput, self1)
            | name :: rest' =>
                match show_metric_details float server name self1 with
                | (Ok lines, self2) =>
                    let '(out, e, self3) := interactive rest' self2 in
                    (SMenu :: SDetails lines :: out, e, self3)
                | (Raise e, self2) => ([SMenu], Crash e, self2)
                end
            end
        | (Raise e, self1) => ([SMenu], Crash e, self1)
        end
      else if String.eqb choice "4" then ([SMenu], Quit, self)
      else
        let '(out, e, self1) := interactive rest self in
        (SMenu :: out, e, self1)
  end.

End Menu.

Arguments shown : clear implicits.


(** What holds at the end of a session: it ends normally only after the
    choice 4; an exception that ends it came from a request or is the
    IndexError of the parse, and leaves metrics_cache empty; and no entry
    of help_cache was changed. *)
Definition session_end_facts {F : Type} (inputs : list string)
    (self : explorer F) (e : ending) (self' : explorer F) : Prop :=
  (e = Quit -> "4" ∈ inputs)
  ∧ (∀ x, e = Crash x ->
       (x = RequestException ∨ x = IndexError)
       ∧ cache_truthy (metrics_cache self') = false)
  ∧ help_cache self ⊆ help_cache self'.

(** ** Letters and their case *)









(** ** Closed instances *)

(** Writes a text with double quotes from one with single quotes. *)
Fixpoint sq (s : string) : string :=
  match s with
  | EmptyString => EmptyString
  | String c s' => String (if Ascii.eqb c "'" then Py.dquote else c) (sq s')
  end.

(** An instance of the float builtin for closed examples: it reads a
    non-empty run of decimal digits, which float accepts as written, and
    nothing else. *)
Fixpoint digits_value (acc : nat) (s : string) : option nat :=
  match s with
  | EmptyString => Some acc
  | String c s' =>
      if Py.in_range 48 57 c
      then digits_value (10 * acc + (nat_of_ascii c - 48)) s'
      else None
  end.

Definition float_digits (s : string) : option nat :=
  match s with
  | EmptyString => None
  | _ => digits_value 0 s
  end.

(** A server that answers the same text to every request. *)
Definition constant_server (text : string) : nat -> option string :=
  fun _ => Some text.

(** A server that answers the texts of a list in turn, then fails. *)
Definition list_server (texts : list string) : nat -> option string :=
  fun n => texts !! n.

Definition nl : string := String "010" EmptyString.

(** The document of the first-seen-wins property of the specification. *)
Definition doc_c3 : string :=
  "# HELP x first" +:+ nl +:+ "# TYPE x counter" +:+ nl +:+ "x 1" +:+ nl
  +:+ "# HELP x second" +:+ nl +:+ "x 2".

(** ** Facts about the string primitives *)

Lemma split1_no_sep sep s : Py.char_in sep s = false -> Py.split1 sep s = [s].
Proof.
  induction s as [|c s IH]; simpl; [done|].
  rewrite (Ascii.eqb_sym c sep).
  destruct (Ascii.eqb sep c); [done|].
  intros H. by rewrite (IH H).
Qed.

Lemma split_no_sep sep s : Py.char_in sep s = false -> Py.split sep s = [s].
Proof.
  induction s as [|c s IH]; simpl; [done|].
  rewrite (Ascii.eqb_sym c sep).
  destruct (Ascii.eqb sep c); [done|].
  intros H. by rewrite (IH H).
Qed.

Lemma split_app sep a b :
  Py.char_in sep a = false ->
  Py.split sep (a +:+ String sep b) = a :: Py.split sep b.
Proof.
  induction a as [|c a IH]; simpl.
  - by rewrite Ascii.eqb_refl.
  - rewrite (Ascii.eqb_sym c sep).
    destruct (Ascii.eqb sep c); [done|].
    intros H. by rewrite (IH H).
Qed.

Lemma split1_app sep a b :
  Py.char_in sep a = false ->
  Py.split1 sep (a +:+ String sep b) = [a; b].
Proof.
  induction a as [|c a IH]; simpl.
  - by rewrite Ascii.eqb_refl.
  - rewrite (Ascii.eqb_sym c sep).
    destruct (Ascii.eqb sep c); [done|].
    intros H. by rewrite (IH H).
Qed.

Lemma split_nonempty sep s : Py.split sep s <> [].
Proof.
  destruct s as [|c s]; simpl; [done|].
  destruct (Ascii.eqb c sep); [done|].
  by destruct (Py.split sep s).
Qed.

(** ** The label block *)

Lemma findall_cons c s :
  findall (String c s) =
    match Py.label_pair_at (String c s) with
    | Some (key, value, rest) => (key, value) :: findall rest
    | None => findall s
    end.
Proof.
  simp findall. unfold inspect.
  enough (H : ∀ o (e : Py.label_pair_at (String c s) = o),
    findall_unfold_clause_2 c s (o ↾ e) =
      match o with
      | Some (key, value, rest) => (key, value) :: findall rest
      | None => findall s
      end) by apply H.
  by intros [[[key value] rest]|] e.
Qed.


Lemma append_cons c a b : String c a +:+ b = String c (a +:+ b).
Proof. done. Qed.

Lemma append_nil b : EmptyString +:+ b = b.
Proof. done. Qed.

Lemma append_assoc' a b c : (a +:+ b) +:+ c = a +:+ (b +:+ c).
Proof.
  induction a as [|d a IH]; [done|]. by rewrite !append_cons, IH.
Qed.

Lemma append_length a b :
  String.length (a +:+ b) = String.length a + String.length b.
Proof.
  induction a as [|d a IH]; [done|]. rewrite append_cons. simpl. by rewrite IH.
Qed.

Lemma span_app p a b :
  all_chars p a = true ->
  match b with EmptyString => True | String c _ => p c = false end ->
  Py.span p (a +:+ b) = (a, b).
Proof.
  intros Ha Hb. induction a as [|c a IH].
  - rewrite append_nil. destruct b as [|c b]; [done|].
    cbn [Py.span]. by rewrite Hb.
  - rewrite append_cons. cbn [Py.span all_chars] in *.
    apply andb_prop in Ha as [-> Ha]. by rewrite (IH Ha).
Qed.

Lemma label_pair_at_written key value rest :
  Py.truthy key = true ->
  all_chars Py.is_word key = true ->
  all_chars Py.not_dquote value = true ->
  Py.label_pair_at
    (key +:+ String "=" (String Py.dquote (value +:+ String Py.dquote rest)))
  = Some (key, value, rest).
Proof.
  intros Hk Hw Hv. unfold Py.label_pair_at.
  rewrite (span_app _ _ _ Hw) by done.
  destruct key as [|k0 key]; [done|].
  change (Ascii.eqb "=" "=" && Ascii.eqb Py.dquote Py.dquote) with true.
  cbn iota. by rewrite (span_app _ _ _ Hv).
Qed.

Lemma findall_skip sep s :
  all_chars not_word sep = true -> findall (sep +:+ s) = findall s.
Proof.
  induction sep as [|c sep IH]; [done|].
  cbn [all_chars]. intros [Hc Hsep]%andb_prop.
  rewrite append_cons, findall_cons. unfold Py.label_pair_at.
  cbn [Py.span]. apply negb_true_iff in Hc. rewrite Hc. by apply IH.
Qed.

Lemma findall_not_word s : all_chars not_word s = true -> findall s = [].
Proof.
  induction s as [|c s IH]; [intros _; by simp findall|].
  cbn [all_chars]. intros [Hc Hs]%andb_prop.
  rewrite findall_cons. unfold Py.label_pair_at.
  cbn [Py.span]. apply negb_true_iff in Hc. rewrite Hc. by apply IH.
Qed.

Lemma findall_written key value rest :
  Py.truthy key = true ->
  all_chars Py.is_word key = true ->
  all_chars Py.not_dquote value = true ->
  findall
    (key +:+ String "=" (String Py.dquote (value +:+ String Py.dquote rest)))
  = (key, value) :: findall rest.
Proof.
  intros Hk Hw Hv.
  pose proof (label_pair_at_written key value rest Hk Hw Hv) as Hm.
  destruct key as [|k0 key]; [done|].
  rewrite append_cons in *. by rewrite findall_cons, Hm.
Qed.

Lemma findall_items items tail :
  forallb item_ok items = true ->
  all_chars not_word tail = true ->
  findall (written items tail) = (λ item, (item.1.2, item.2)) <$> items.
Proof.
  intros Hi Ht. induction items as [|[[sep key] value] items IH].
  - by apply findall_not_word.
  - cbn [forallb written fmap list_fmap] in *.
    apply andb_prop in Hi as [Hitem Hi]. unfold item_ok in Hitem.
    cbn [fst snd] in *.
    apply andb_prop in Hitem as [[[Hs Hk]%andb_prop Hw]%andb_prop Hv].
    by rewrite (findall_skip _ _ Hs), (findall_written _ _ _ Hk Hw Hv), IH.
Qed.

Lemma overwrite_last_wins pairs (k : string) :
  foldl (λ (lbls : gmap string string) p, <[p.1 := p.2]> lbls) ∅ pairs !! k
  = last_value k pairs.
Proof.
  unfold last_value.
  induction pairs as [|[k' v'] pairs IH] using rev_ind; [done|].
  rewrite foldl_app, filter_app. cbn [foldl fst snd].
  rewrite filter_cons, filter_nil. cbn [fst].
  destruct (decide (k' = k)) as [->|Hne].
  - by rewrite lookup_insert_eq, last_snoc.
  - by rewrite lookup_insert_ne, app_nil_r.
Qed.

Lemma char_in_false_index c s : Py.char_in c s = false -> Py.rindex c s = None.
Proof.
  induction s as [|d s IH]; [done|]. cbn [Py.char_in Py.rindex].
  destruct (Ascii.eqb c d); [done|]. intros H. by rewrite (IH H).
Qed.

Lemma index_app c a r :
  Py.char_in c a = false ->
  Py.index c (a +:+ String c r) = Some (String.length a).
Proof.
  induction a as [|d a IH].
  - intros _. rewrite append_nil. cbn [Py.index]. by rewrite Ascii.eqb_refl.
  - rewrite append_cons. cbn [Py.char_in Py.index].
    destruct (Ascii.eqb c d); [done|]. intros H. by rewrite (IH H).
Qed.

Lemma rindex_app c a r :
  Py.char_in c r = false ->
  Py.rindex c (a +:+ String c r) = Some (String.length a).
Proof.
  intros Hr. induction a as [|d a IH].
  - rewrite append_nil. cbn [Py.rindex].
    by rewrite (char_in_false_index _ _ Hr), Ascii.eqb_refl.
  - rewrite append_cons. cbn [Py.rindex]. by rewrite IH.
Qed.

Lemma take_str_app a r : Py.take_str (String.length a) (a +:+ r) = a.
Proof.
  induction a as [|d a IH]; [done|].
  rewrite append_cons. cbn [String.length Py.take_str]. by rewrite IH.
Qed.

Lemma drop_str_app a r : Py.drop_str (String.length a) (a +:+ r) = r.
Proof. induction a as [|d a IH]; [done|]. by rewrite append_cons. Qed.

(** The name and the raw label list of a name part with a label block. *)
Lemma parse_labelled_block name raw tail :
  Py.char_in "{" name = false ->
  Py.char_in "}" tail = false ->
  parse_labelled (name +:+ String "{" (raw +:+ String "}" tail))
  = Ok (name,
        foldl (λ (lbls : gmap string string) p, <[p.1 := p.2]> lbls) ∅
              (findall raw)).
Proof.
  intros Hn Ht. unfold parse_labelled.
  rewrite (index_app _ _ _ Hn). cbn [or_ValueError mbind result_bind].
  replace (name +:+ String "{" (raw +:+ String "}" tail))
    with ((name +:+ String "{" raw) +:+ String "}" tail)
    by (by rewrite append_assoc').
  rewrite (rindex_app _ _ _ Ht). cbn [or_ValueError mbind result_bind].
  rewrite append_assoc', take_str_app. unfold Py.slice.
  rewrite append_length. cbn [String.length].
  replace (String.length name + S (String.length raw)
           - (String.length name + 1)) with (String.length raw) by lia.
  replace (String.length name + 1)
    with (String.length (name +:+ String "{" EmptyString))
    by (rewrite append_length; done).
  replace (name +:+ String "{" raw +:+ String "}" tail)
    with ((name +:+ String "{" EmptyString) +:+ raw +:+ String "}" tail)
    by (by rewrite append_assoc').
  by rewrite drop_str_app, take_str_app.
Qed.

(** ** The classifier *)

Lemma not_comment_not_marker line :
  Py.startswith "#" line = false ->
  Py.startswith "# HELP " line = false ∧ Py.startswith "# TYPE " line = false.
Proof.
  destruct line as [|c line]; [done|]. cbn [Py.startswith].
  by destruct (Ascii.eqb "#" c).
Qed.

Lemma sample_line_not_marker line :
  sample_line line = true ->
  Py.startswith "# HELP " line = false ∧ Py.startswith "# TYPE " line = false.
Proof.
  unfold sample_line. intros [H _]%andb_prop.
  apply not_comment_not_marker. by apply negb_true_iff.
Qed.

Section Parser.

Context {F : Type}.
Variable float : string -> option F.

Lemma step_sample line lo hc :
  sample_line line = true ->
  step float lo hc line =
    match parse_sample float line with
    | Ok (name, v, lbls) =>
        Ok (Locals (metrics lo ++ [Metric name v lbls (current_help lo)])
                   (current_help lo) (current_type lo),
            match hc !! name with
            | None => <[name := Meta (current_help lo) (current_type lo)]> hc
            | Some _ => hc
            end)
    | Raise _ => Ok (lo, hc)
    end.
Proof.
  intros Hs. destruct (sample_line_not_marker _ Hs) as [Hh Ht].
  unfold step. rewrite Hh, Ht.
  unfold sample_line in Hs. by rewrite Hs.
Qed.

Lemma for_lines_app pre post lo hc :
  for_lines float (pre ++ post) lo hc =
    match for_lines float pre lo hc with
    | (Ok lo', hc') => for_lines float post lo' hc'
    | (Raise e, hc') => (Raise e, hc')
    end.
Proof.
  revert lo hc. induction pre as [|line pre IH]; intros lo hc; simpl; [done|].
  destruct (step float lo hc line) as [[lo' hc']|e]; [apply IH|done].
Qed.

(** A HELP or TYPE line whose payload holds no space. *)
Lemma step_marker_without_text name lo hc :
  Py.char_in " " name = false ->
  step float lo hc ("# HELP " +:+ name) = Raise IndexError
  ∧ step float lo hc ("# TYPE " +:+ name) = Raise IndexError.
Proof.
  intros Hn. unfold step. simpl.
  change ("" +:+ name) with name. by rewrite (split1_no_sep _ _ Hn).
Qed.

(** C1 (the code does not do this). The specification wants a HELP or TYPE
    line with no space after the metric name not to abort the parse. In the
    code the subscript [1] of the one-element split raises IndexError
    outside the try block: whatever was parsed before, the loop ends with
    the exception and no sample is returned. *)
Theorem marker_without_text_aborts (pre rest : list string) (name : string)
    (lo lo' : locals F) (hc hc' : gmap string meta) :
  for_lines float pre lo hc = (Ok lo', hc') ->
  Py.char_in " " name = false ->
  for_lines float (pre ++ ("# HELP " +:+ name) :: rest) lo hc
    = (Raise IndexError, hc')
  ∧ for_lines float (pre ++ ("# TYPE " +:+ name) :: rest) lo hc
    = (Raise IndexError, hc').
Proof.
  intros Hpre Hn. rewrite !for_lines_app, Hpre.
  destruct (step_marker_without_text name lo' hc' Hn) as [Hh Ht].
  split.
  - change (for_lines float (("# HELP " +:+ name) :: rest) lo' hc')
      with (match step float lo' hc' ("# HELP " +:+ name) with
            | Ok (lo2, hc2) => for_lines float rest lo2 hc2
            | Raise e => (Raise e, hc')
            end).
    by rewrite Hh.
  - change (for_lines float (("# TYPE " +:+ name) :: rest) lo' hc')
      with (match step float lo' hc' ("# TYPE " +:+ name) with
            | Ok (lo2, hc2) => for_lines float rest lo2 hc2
            | Raise e => (Raise e, hc')
            end).
    by rewrite Ht.
Qed.

(** *** Lines the decoder gives up on *)

Lemma index_char_in c s :
  Py.char_in c s = true -> ∃ i, Py.index c s = Some i.
Proof.
  induction s as [|d s IH]; cbn [Py.char_in Py.index]; [done|].
  destruct (Ascii.eqb c d); [by eexists|].
  intros [i Hi]%IH. rewrite Hi. by eexists.
Qed.

Lemma parse_labelled_raises name_part e :
  parse_labelled name_part = Raise e ->
  e = ValueError ∧
  (Py.char_in "{" name_part = true -> Py.rindex "}" name_part = None).
Proof.
  unfold parse_labelled.
  destruct (Py.index "{" name_part) as [i|] eqn:Hi; simpl.
  - destruct (Py.rindex "}" name_part) as [j|]; simpl; [done|].
    by intros [= <-].
  - intros [= <-]. split; [done|].
    intros [i Hi']%index_char_in. congruence.
Qed.

Lemma parse_sample_raises line :
  (∃ e, parse_sample float line = Raise e) ↔ decode_fails float line.
Proof.
  unfold parse_sample, decode_fails. split.
  - intros [e He].
    destruct (Py.split " " line) as [|a [|b [|c r]]]; try (by left).
    right. exists a, b. split; [done|].
    destruct (Py.char_in "{" a) eqn:Hb.
    + destruct (parse_labelled a) as [nl0|e'] eqn:Hl; simpl in He.
      * right. by destruct (float b).
      * left. split; [done|]. by eapply parse_labelled_raises.
    + simpl in He. right. by destruct (float b).
  - intros [Hne|(a & b & -> & [[Hb Hr]|Hf])].
    + destruct (Py.split " " line) as [|a [|b [|c r]]]; try by eexists.
      by destruct (Hne a b).
    + rewrite Hb. unfold parse_labelled. rewrite Hr.
      destruct (Py.index "{" a); simpl; by eexists.
    + rewrite Hf.
      destruct (if Py.char_in "{" a then parse_labelled a else Ok (a, ∅));
        simpl; by eexists.
Qed.

Lemma step_decode_fails line lo hc :
  sample_line line = true -> decode_fails float line ->
  step float lo hc line = Ok (lo, hc).
Proof.
  intros Hs [e He]%parse_sample_raises.
  by rewrite (step_sample _ _ _ Hs), He.
Qed.

Lemma for_lines_skip line pre post lo hc :
  (∀ lo' hc', step float lo' hc' line = Ok (lo', hc')) ->
  for_lines float (pre ++ line :: post) lo hc
  = for_lines float (pre ++ post) lo hc.
Proof.
  intros Hskip. rewrite !for_lines_app.
  destruct (for_lines float pre lo hc) as [[lo'|e] hc']; [|done].
  cbn [for_lines]. by rewrite Hskip.
Qed.

Lemma parse_of_lines text hc :
  parse float text hc =
    match for_lines float (Py.split "010" text)
            (Locals [] EmptyString EmptyString) hc with
    | (Ok lo, hc') => (Ok (metrics lo), hc')
    | (Raise e, hc') => (Raise e, hc')
    end.
Proof.
  unfold parse.
  by destruct (for_lines float _ _ hc) as [[lo|e] hc'].
Qed.



(** *** An opening brace without a closing one after it *)

(** C9, as amended. On a sample line whose name part holds an opening
    brace: when the name part holds no closing brace the failure of rindex
    is absorbed, the line is dropped and the lines after it are read; when
    the last closing brace comes before the first opening brace nothing
    fails: the slice between them is empty, and a line whose value is a
    float gives a sample named by the text before the opening brace, with
    no label. *)
Theorem unclosed_label_block (line name_part value_str : string) :
  sample_line line = true ->
  Py.split " " line = [name_part; value_str] ->
  Py.char_in "{" name_part = true ->
  (Py.rindex "}" name_part = None ->
     ∀ rest lo hc,
       for_lines float (line :: rest) lo hc = for_lines float rest lo hc)
  ∧ (∀ i j v,
       Py.index "{" name_part = Some i ->
       Py.rindex "}" name_part = Some j ->
       j < i ->
       float value_str = Some v ->
       ∀ lo hc,
         step float lo hc line =
           Ok (Locals (metrics lo ++
                         [Metric (Py.take_str i name_part) v ∅ (current_help lo)])
                      (current_help lo) (current_type lo),
               match hc !! Py.take_str i name_part with
               | None => <[Py.take_str i name_part :=
                             Meta (current_help lo) (current_type lo)]> hc
               | Some _ => hc
               end)).
Proof.
  intros Hs Hsplit Hb. split.
  - intros Hr rest lo hc. cbn [for_lines].
    rewrite step_decode_fails; [done..|].
    right. exists name_part, value_str. split; [done|]. by left.
  - intros i j v Hi Hj Hlt Hv lo hc.
    rewrite (step_sample _ _ _ Hs). unfold parse_sample.
    rewrite Hsplit, Hb. unfold parse_labelled. rewrite Hi, Hj, Hv. simpl.
    unfold Py.slice. replace (j - (i + 1)) with 0 by lia.
    cbn [Py.take_str]. by simp findall.
Qed.


(** *** The running HELP and TYPE context *)

Lemma startswith_inv p s :
  Py.startswith p s = true -> ∃ r, s = p +:+ r.
Proof.
  revert s. induction p as [|a p IH]; intros s; cbn [Py.startswith].
  - by exists s.
  - destruct s as [|b s]; [done|].
    destruct (Ascii.eqb_spec a b) as [->|]; [|done].
    intros [r ->]%IH. by exists r.
Qed.

Lemma help_line_facts line :
  Py.startswith "# HELP " line = true ->
  Py.startswith "# TYPE " line = false ∧ decoded float line = None.
Proof. intros [r ->]%startswith_inv. done. Qed.

Lemma type_line_facts line :
  Py.startswith "# TYPE " line = true ->
  Py.startswith "# HELP " line = false ∧ decoded float line = None.
Proof. intros [r ->]%startswith_inv. done. Qed.

Lemma decoded_facts line nvl :
  decoded float line = Some nvl ->
  Py.startswith "# HELP " line = false
  ∧ Py.startswith "# TYPE " line = false
  ∧ sample_line line = true ∧ parse_sample float line = Ok nvl.
Proof.
  unfold decoded. destruct (sample_line line) eqn:Hs; [|done].
  destruct (sample_line_not_marker _ Hs) as [-> ->].
  destruct (parse_sample float line); [|done]. by intros [= ->].
Qed.

(** A line that is neither a marker line nor a decoded sample changes
    nothing. *)
Lemma step_no_effect line lo hc :
  Py.startswith "# HELP " line = false ->
  Py.startswith "# TYPE " line = false ->
  decoded float line = None ->
  step float lo hc line = Ok (lo, hc).
Proof.
  intros Hh Ht Hd. unfold step. rewrite Hh, Ht.
  unfold decoded, sample_line in Hd.
  destruct (negb (Py.startswith "#" line) && Py.truthy (Py.strip line));
    [|done].
  by destruct (parse_sample float line) as [[[??]?]|].
Qed.

Lemma for_lines_context lines : ∀ read lo hc lo' hc',
  for_lines float lines lo hc = (Ok lo', hc') ->
  current_help lo = most_recent "# HELP " read ->
  current_type lo = most_recent "# TYPE " read ->
  metrics lo' = (metrics lo ++ samples_of float read lines)%list
  ∧ ∀ name, hc' !! name = match hc !! name with
                          | Some e => Some e
                          | None => first_context float name read lines
                          end.
Proof.
  induction lines as [|line rest IH]; intros read lo hc lo' hc' Hrun Hh Ht.
  - injection Hrun as <- <-. cbn [samples_of first_context].
    rewrite app_nil_r. split; [done|]. intros name. by destruct (hc !! name).
  - cbn [for_lines] in Hrun. cbn [samples_of first_context].
    destruct (Py.startswith "# HELP " line) eqn:Eh.
    { destruct (help_line_facts _ Eh) as [Et Ed]. rewrite Ed.
      unfold step in Hrun. rewrite Eh in Hrun.
      unfold text_after_name in *.
      destruct (subscript _ 1) as [h|e] eqn:Es; [|done].
      unfold subscript in Es. cbn in Hrun.
      destruct (Py.split1 " " (Py.drop_str 7 line) !! 1) as [h'|] eqn:El;
        [|done].
      injection Es as <-.
      apply (IH (line :: read)) in Hrun; [done|..]; cbn [most_recent].
      - rewrite Eh. unfold text_after_name. by rewrite El.
      - by rewrite Et. }
    destruct (Py.startswith "# TYPE " line) eqn:Et.
    { destruct (type_line_facts _ Et) as [_ Ed]. rewrite Ed.
      unfold step in Hrun. rewrite Eh, Et in Hrun.
      destruct (subscript _ 1) as [t|e] eqn:Es; [|done].
      unfold subscript in Es. cbn in Hrun.
      destruct (Py.split1 " " (Py.drop_str 7 line) !! 1) as [t'|] eqn:El;
        [|done].
      injection Es as <-.
      apply (IH (line :: read)) in Hrun; [done|..]; cbn [most_recent].
      - by rewrite Eh.
      - rewrite Et. unfold text_after_name. by rewrite El. }
    destruct (decoded float line) as [[[name v] lbls]|] eqn:Ed.
    + destruct (decoded_facts _ _ Ed) as (_ & _ & Hs & Hp).
      rewrite (step_sample _ _ _ Hs), Hp in Hrun.
      apply (IH (line :: read)) in Hrun; cbn [most_recent];
        rewrite ?Eh, ?Et; [|done..].
      destruct Hrun as [Hm Hc]. cbn [metrics] in Hm.
      rewrite Hm, <- app_assoc, Hh. split; [done|].
      intros name'. rewrite Hc.
      destruct (hc !! name) as [e|] eqn:Ehc.
      * case_bool_decide as Hn; [subst name'; by rewrite Ehc|done].
      * case_bool_decide as Hn.
        -- subst name'. by rewrite lookup_insert_eq, Ehc, Hh, Ht.
        -- by rewrite lookup_insert_ne.
    + rewrite (step_no_effect _ _ _ Eh Et Ed) in Hrun.
      apply (IH (line :: read)) in Hrun; cbn [most_recent];
        rewrite ?Eh, ?Et; done.
Qed.


Lemma startswith_app p r : Py.startswith p (p +:+ r) = true.
Proof.
  induction p as [|a p IH]; [done|].
  change (String a p +:+ r) with (String a (p +:+ r)).
  cbn [Py.startswith]. by rewrite Ascii.eqb_refl.
Qed.

Lemma step_help name text lo hc :
  Py.char_in " " name = false ->
  step float lo hc ("# HELP " +:+ name +:+ String " " text)
  = Ok (Locals (metrics lo) text (current_type lo), hc).
Proof.
  intros Hn. unfold step. rewrite startswith_app.
  change (Py.drop_str 7 ("# HELP " +:+ name +:+ String " " text))
    with (name +:+ String " " text).
  by rewrite (split1_app _ _ _ Hn).
Qed.

Lemma step_type name text lo hc :
  Py.char_in " " name = false ->
  step float lo hc ("# TYPE " +:+ name +:+ String " " text)
  = Ok (Locals (metrics lo) (current_help lo) text, hc).
Proof.
  intros Hn. unfold step.
  destruct (type_line_facts ("# TYPE " +:+ name +:+ String " " text))
    as [-> _]; [apply startswith_app|].
  rewrite startswith_app.
  change (Py.drop_str 7 ("# TYPE " +:+ name +:+ String " " text))
    with (name +:+ String " " text).
  by rewrite (split1_app _ _ _ Hn).
Qed.

(** A sample line without a label block. *)
Lemma parse_sample_plain name value_str v :
  Py.char_in " " name = false ->
  Py.char_in " " value_str = false ->
  Py.char_in "{" name = false ->
  float value_str = Some v ->
  parse_sample float (name +:+ String " " value_str) = Ok (name, v, ∅).
Proof.
  intros Hn Hv Hb Hf. unfold parse_sample.
  rewrite (split_app _ _ _ Hn), (split_no_sep _ _ Hv), Hb, Hf. done.
Qed.

(** *** What a whole parse gives *)

Lemma parse_context text hc samples hc' :
  parse float text hc = (Ok samples, hc') ->
  samples = samples_of float [] (Py.split "010" text)
  ∧ ∀ name, hc' !! name =
      match hc !! name with
      | Some e => Some e
      | None => first_context float name [] (Py.split "010" text)
      end.
Proof.
  rewrite parse_of_lines.
  destruct (for_lines float _ _ hc) as [[lo|e] hc2] eqn:Hrun; [|done].
  intros [= <- <-].
  by apply (for_lines_context _ []) in Hrun.
Qed.

Lemma first_context_named name lines : ∀ read e,
  first_context float name read lines = Some e ->
  name ∈ metric_name <$> samples_of float read lines.
Proof.
  induction lines as [|line rest IH]; intros read e; [done|].
  cbn [first_context samples_of].
  destruct (decoded float line) as [[[name' v] lbls]|]; [|apply IH].
  rewrite fmap_cons, elem_of_cons. cbn [metric_name].
  case_bool_decide as Hn; [by left|]. intros H. right. by eapply IH.
Qed.

(** Only the names of the samples get an entry. *)
Lemma parse_metadata_names text samples hc' name :
  parse float text ∅ = (Ok samples, hc') ->
  name ∉ metric_name <$> samples ->
  hc' !! name = None.
Proof.
  intros [-> Hhc]%parse_context Hname. rewrite Hhc, lookup_empty.
  destruct (first_context float name [] _) as [e|] eqn:He; [|done].
  by apply first_context_named in He.
Qed.


(** C3. The help of each sample is the text of the most recent HELP line
    before it in the document, whatever name that line mentions, and the
    metadata of a name that had no entry is the help and type in effect at
    the first sample of the name: later HELP and TYPE lines do not change
    it, and an entry that was there is kept. On the document of the
    specification the metadata of x is (first, counter) and the two
    samples of x carry the helps first and second; a HELP line that names
    another metric gives its text to the sample all the same. *)
Theorem help_follows_running_context :
  (∀ text hc samples hc',
     parse float text hc = (Ok samples, hc') ->
     samples = samples_of float [] (Py.split "010" text)
     ∧ ∀ name, hc' !! name =
         match hc !! name with
         | Some e => Some e
         | None => first_context float name [] (Py.split "010" text)
         end)
  ∧ (∀ v1 v2,
       float "1" = Some v1 -> float "2" = Some v2 ->
       parse float doc_c3 ∅
       = (Ok [Metric "x" v1 ∅ "first"; Metric "x" v2 ∅ "second"],
          {["x" := Meta "first" "counter"]}))
  ∧ (∀ v1,
       float "1" = Some v1 ->
       parse float ("# HELP y about y" +:+ String "010" "x 1") ∅
       = (Ok [Metric "x" v1 ∅ "about y"],
          {["x" := Meta "about y" EmptyString]})).
Proof.
  split; [|split].
  - apply parse_context.
  - intros v1 v2 H1 H2. rewrite parse_of_lines.
    change (Py.split "010" doc_c3)
      with ["# HELP " +:+ "x" +:+ String " " "first";
            "# TYPE " +:+ "x" +:+ String " " "counter";
            "x" +:+ String " " "1";
            "# HELP " +:+ "x" +:+ String " " "second";
            "x" +:+ String " " "2"].
    cbn [for_lines].
    rewrite step_help by done. rewrite step_type by done.
    rewrite step_sample by done.
    rewrite (parse_sample_plain "x" "1" v1) by done.
    rewrite step_help by done.
    rewrite step_sample by done.
    rewrite (parse_sample_plain "x" "2" v2) by done.
    cbn [metrics current_help current_type].
    rewrite lookup_empty, lookup_insert_eq. done.
  - intros v1 H1. rewrite parse_of_lines.
    change (Py.split "010" ("# HELP y about y" +:+ String "010" "x 1"))
      with ["# HELP " +:+ "y" +:+ String " " "about y";
            "x" +:+ String " " "1"].
    cbn [for_lines].
    rewrite step_help by done.
    rewrite step_sample by done.
    rewrite (parse_sample_plain "x" "1" v1) by done.
    cbn [metrics current_help current_type].
    rewrite lookup_empty. done.
Qed.


(** *** The label block of a sample line *)

(** C6, as amended. On a sample line whose name part is a name without an
    opening brace, an opening brace, a raw label list, a closing brace and
    a tail without a closing brace, the metric name is the text before the
    first opening brace and the raw label list is the text between the
    first opening brace and the last closing brace. The raw label list is
    read as the pairs written in it, in textual order, a key being a
    non-empty run of word characters and a value a run of characters other
    than the double quote (a backslash escapes nothing); in the mapping the
    last pair of a key wins. *)
Theorem label_block_decoding :
  (∀ name raw tail value_str v,
     Py.char_in "{" name = false ->
     Py.char_in "}" tail = false ->
     Py.char_in " " (name +:+ String "{" (raw +:+ String "}" tail)) = false ->
     Py.char_in " " value_str = false ->
     float value_str = Some v ->
     parse_sample float
       ((name +:+ String "{" (raw +:+ String "}" tail))
          +:+ String " " value_str)
     = Ok (name, v,
           foldl (λ (lbls : gmap string string) p, <[p.1 := p.2]> lbls) ∅
                 (findall raw)))
  ∧ (∀ items tail,
       forallb item_ok items = true ->
       all_chars not_word tail = true ->
       findall (written items tail)
       = (λ item, (item.1.2, item.2)) <$> items)
  ∧ (∀ pairs (k : string),
       foldl (λ (lbls : gmap string string) p, <[p.1 := p.2]> lbls) ∅ pairs
         !! k
       = last_value k pairs).
Proof.
  split; [|split].
  - intros name raw tail value_str v Hn Ht Hsp Hv Hf.
    unfold parse_sample.
    rewrite (split_app _ _ _ Hsp), (split_no_sep _ _ Hv).
    assert (Hb : Py.char_in "{"
                   (name +:+ String "{" (raw +:+ String "}" tail)) = true).
    { clear. induction name as [|c name IH]; [done|].
      rewrite append_cons. cbn [Py.char_in].
      by destruct (Ascii.eqb "{" c). }
    by rewrite Hb, (parse_labelled_block _ _ _ Hn Ht), Hf.
  - apply findall_items.
  - apply overwrite_last_wins.
Qed.


End Parser.

(** ** First occurrences *)

Section First_occurrences.

Context {A : Type}.
Variable key : A -> string.

Lemma first_by_elem x l :
  x ∈ first_by key l ↔ ∃ pre post, l = pre ++ x :: post ∧ key x ∉ key <$> pre.
Proof.
  induction l as [|a l IH]; cbn [first_by].
  - split; [by intros ?%elem_of_nil|].
    intros (pre & post & H & _). by destruct pre.
  - rewrite elem_of_cons, list_elem_of_filter, IH. split.
    + intros [->|[Hne (pre & post & -> & Hpre)]].
      * exists [], l. split; [done|]. apply not_elem_of_nil.
      * exists (a :: pre), post. split; [done|].
        rewrite fmap_cons, not_elem_of_cons. done.
    + intros (pre & post & H & Hpre). destruct pre as [|b pre].
      * left. by injection H.
      * injection H as <- ->. right.
        rewrite fmap_cons, not_elem_of_cons in Hpre.
        destruct Hpre as [Hne Hpre]. split; [done|]. by exists pre, post.
Qed.

Lemma first_by_keys k l : k ∈ key <$> first_by key l ↔ k ∈ key <$> l.
Proof.
  rewrite !list_elem_of_fmap. split.
  - intros (x & -> & (pre & post & -> & _)%first_by_elem).
    exists x. split; [done|]. rewrite elem_of_app, elem_of_cons. auto.
  - intros (x & -> & Hx).
    induction l as [|a l IH]; [by apply elem_of_nil in Hx|].
    cbn [first_by]. apply elem_of_cons in Hx as [->|Hx].
    + exists a. split; [done|]. apply elem_of_cons. by left.
    + destruct (IH Hx) as (y & Hy & Hin).
      destruct (decide (key y = key a)) as [Heq|Hne].
      * exists a. split; [congruence|]. apply elem_of_cons. by left.
      * exists y. split; [done|].
        rewrite elem_of_cons, list_elem_of_filter. auto.
Qed.

Lemma first_by_sublist l : first_by key l `sublist_of` l.
Proof.
  induction l as [|a l IH]; [done|]. cbn [first_by].
  apply sublist_skip. etrans; [apply sublist_filter|done].
Qed.

Lemma first_by_NoDup l : NoDup (key <$> first_by key l).
Proof.
  induction l as [|a l IH]; cbn [first_by]; [constructor|].
  rewrite fmap_cons. apply NoDup_cons. split.
  - rewrite list_elem_of_fmap. intros (y & Hy & Hin).
    apply list_elem_of_filter in Hin as [Hne _]. congruence.
  - eapply sublist_NoDup; [exact IH|].
    apply fmap_sublist, sublist_filter.
Qed.

(** The loop that appends an element unless its key was met: one more
    element at the end. *)
Lemma first_by_snoc l x :
  first_by key (l ++ [x]) =
    if decide (key x ∈ key <$> l) then first_by key l else first_by key l ++ [x].
Proof.
  induction l as [|a l IH].
  - cbn. destruct (decide _) as [H|_]; [by apply elem_of_nil in H|done].
  - cbn [app first_by]. rewrite IH, fmap_cons.
    destruct (decide (key x ∈ key <$> l)) as [Hin|Hnin].
    + rewrite decide_True; [done|]. apply elem_of_cons. by right.
    + rewrite filter_app, filter_cons, filter_nil.
      destruct (decide (key x ≠ key a)) as [Hne|Heq].
      * rewrite decide_False; [done|].
        rewrite elem_of_cons. intros [?|?]; done.
      * apply dec_stable in Heq. rewrite decide_True.
        -- by rewrite app_nil_r.
        -- apply elem_of_cons. by left.
Qed.

End First_occurrences.

(** ** Substrings *)

Lemma contains_occurs sub s : Py.contains sub s = true ↔ occurs sub s.
Proof.
  unfold occurs. split.
  - induction s as [|c s IH].
    + cbn [Py.contains]. rewrite orb_false_r.
      intros [r ->]%startswith_inv. by exists EmptyString, r.
    + cbn [Py.contains]. intros [H|H]%orb_prop.
      * apply startswith_inv in H as [r ->]. by exists EmptyString, r.
      * destruct (IH H) as (a & b & ->). by exists (String c a), b.
  - intros (a & b & ->). induction a as [|c a IH].
    + rewrite append_nil.
      assert (Hs := startswith_app sub b).
      destruct (sub +:+ b); cbn [Py.contains]; by rewrite Hs.
    + rewrite append_cons. cbn [Py.contains]. rewrite IH. apply orb_true_r.
Qed.

Lemma contains_empty s : Py.contains EmptyString s = true.
Proof. by destruct s. Qed.

(** ** Case *)








(** ** The index *)

Section Index.

Context {F : Type}.
Variable float : string -> option F.
Variable server : nat -> option string.

Lemma search_fold term (ms : list (metric F)) :
  foldl (search_step term) ([], ∅) ms
  = (triple <$> first_matches term ms,
     list_to_set (metric_name <$> filter (λ m, matches term m = true) ms)).
Proof.
  unfold first_matches.
  induction ms as [|m ms IH] using rev_ind; [done|].
  rewrite foldl_snoc, IH, filter_app, filter_cons, filter_nil.
  unfold search_step. cbn [fst snd].
  destruct (matches term m) eqn:Hm.
  - rewrite decide_True by done. rewrite first_by_snoc, fmap_app.
    case_bool_decide as Hseen; rewrite elem_of_list_to_set in Hseen.
    + rewrite decide_True by done. f_equal.
      cbn. rewrite list_to_set_app_L. cbn. set_solver.
    + rewrite decide_False by done. rewrite fmap_app. f_equal.
      cbn. rewrite list_to_set_app_L. cbn. set_solver.
  - rewrite decide_False by done. by rewrite app_nil_r.
Qed.

Lemma search_loop_first_matches term (ms : list (metric F)) :
  search_loop term ms = triple <$> first_matches term ms.
Proof. unfold search_loop. by rewrite search_fold. Qed.


(** A cache that holds a non-empty list is used as it is. *)
Lemma ensure_cache_hit self ms :
  metrics_cache self = Some ms -> ms ≠ [] ->
  ensure_cache float server self = (Ok ms, self).
Proof.
  intros Hc Hne. unfold ensure_cache. rewrite Hc.
  destruct ms as [|m ms]; done.
Qed.


(** *** The empty search term *)

Lemma matches_empty (m : metric F) : matches EmptyString m = true.
Proof. unfold matches. cbn [Py.lower]. by rewrite contains_empty. Qed.

Lemma first_matches_empty (ms : list (metric F)) :
  first_matches EmptyString ms = first_by metric_name ms.
Proof.
  unfold first_matches. f_equal.
  induction ms as [|m ms IH]; [done|].
  rewrite filter_cons, decide_True by apply matches_empty. by rewrite IH.
Qed.

(** C10. On a populated index, search with the empty term returns one
    entry for each distinct name of the index, in the order in which the
    names first occur, and the entry of a name is made of the help and the
    value of the first sample of that name. *)
Theorem search_empty_term (self : explorer F) (ms : list (metric F)) :
  metrics_cache self = Some ms -> ms ≠ [] ->
  search_metrics float server EmptyString self
    = (Ok (triple <$> first_by metric_name ms), self)
  ∧ NoDup (metric_name <$> first_by metric_name ms)
  ∧ (∀ name, name ∈ metric_name <$> first_by metric_name ms ↔
       name ∈ metric_name <$> ms)
  ∧ first_by metric_name ms `sublist_of` ms
  ∧ (∀ m, m ∈ first_by metric_name ms ↔
       ∃ pre post, ms = pre ++ m :: post
         ∧ metric_name m ∉ metric_name <$> pre).
Proof.
  intros Hc Hne.
  assert (Hrun : search_metrics float server EmptyString self
                 = (Ok (triple <$> first_by metric_name ms), self)).
  { unfold search_metrics.
    by rewrite (ensure_cache_hit _ _ Hc Hne), search_loop_first_matches,
      first_matches_empty. }
  split; [done|]. split; [apply first_by_NoDup|].
  split; [intros name; apply (first_by_keys metric_name)|].
  split; [apply first_by_sublist|].
  intros m. apply (first_by_elem metric_name).
Qed.

(** *** Groups *)

Lemma head_split sep s :
  head (Py.split sep s)
  = Some (match Py.index sep s with
          | Some i => Py.take_str i s
          | None => s
          end).
Proof.
  induction s as [|c s IH]; [done|]. cbn [Py.split Py.index].
  rewrite (Ascii.eqb_sym sep c). destruct (Ascii.eqb c sep); [done|].
  destruct (Py.split sep s) as [|tok toks]; [done|].
  cbn [head] in *. injection IH as ->.
  by destruct (Py.index sep s).
Qed.

Lemma group_of_leading_token name : group_of name = leading_token name.
Proof. unfold group_of, leading_token. by rewrite head_split. Qed.

Lemma group_loop_lookup (ms : list (metric F)) p :
  group_loop ms !! p
  = match names_of_prefix p ms with
    | [] => None
    | names => Some names
    end.
Proof.
  unfold group_loop, names_of_prefix. revert p.
  induction ms as [|m ms IH] using rev_ind; intros p; [done|]. revert p IH.
  rewrite foldl_snoc. set (groups := foldl group_step ∅ ms).
  intros p IH. unfold group_step. rewrite group_of_leading_token.
  set (g := leading_token (metric_name m)).
  set (N := first_by id (filter (λ name, leading_token name = g)
                                (metric_name <$> ms))).
  set (groups1 := match groups !! g with
                  | Some _ => groups
                  | None => <[g := []]> groups
                  end).
  assert (Hother : ∀ q, q ≠ g -> groups1 !! q = groups !! q).
  { intros q Hq. unfold groups1. destruct (groups !! g); [done|].
    by rewrite lookup_insert_ne. }
  assert (Hnames : default [] (groups1 !! g) = N).
  { unfold groups1. destruct (groups !! g) as [l|] eqn:Hg.
    - rewrite Hg. fold groups in IH. rewrite (IH g) in Hg. fold N in Hg.
      destruct N; by inversion Hg.
    - rewrite lookup_insert_eq. fold groups in IH. rewrite (IH g) in Hg.
      fold N in Hg. by destruct N. }
  rewrite Hnames, fmap_app, filter_app.
  change (metric_name <$> [m]) with [metric_name m].
  rewrite filter_cons, filter_nil. fold g.
  destruct (decide (g = p)) as [<-|Hp].
  - rewrite first_by_snoc. fold N. cbn [id].
    assert (Hin : metric_name m ∈ N ↔
      metric_name m ∈ id <$> filter (λ name, leading_token name = g)
                                     (metric_name <$> ms)).
    { unfold N. rewrite <- (first_by_keys id). by rewrite !list_fmap_id. }
    case_bool_decide as Hseen.
    + rewrite decide_True by by apply Hin.
      unfold groups1. destruct (groups !! g) as [l|] eqn:Hg.
      * rewrite Hg, <- Hg. apply IH.
      * fold groups in IH. rewrite (IH g) in Hg. fold N in Hg.
        destruct N; [by apply elem_of_nil in Hseen|done].
    + rewrite decide_False by (by rewrite <- Hin).
      rewrite lookup_insert_eq. by destruct N.
  - rewrite app_nil_r.
    case_bool_decide; rewrite ?lookup_insert_ne by done;
      rewrite Hother by done; apply IH.
Qed.

(** C7. On a populated index, group_metrics returns the mapping in which a
    prefix that some name has is sent to the distinct names of that prefix
    in the order in which they first occur, and no other prefix has an
    entry; the prefix of a name is its text before the first underscore,
    the whole name when it has none. On samples named
    node_cpu_seconds_total, node_memory_bytes and go_gc_duration the
    mapping sends node to the first two names and go to the third. *)
Theorem groups_by_leading_token (self : explorer F) (ms : list (metric F)) :
  metrics_cache self = Some ms -> ms ≠ [] ->
  group_metrics float server self = (Ok (group_loop ms), self)
  ∧ (∀ p, group_loop ms !! p
          = match names_of_prefix p ms with
            | [] => None
            | names => Some names
            end)
  ∧ (∀ p, NoDup (names_of_prefix p ms)
          ∧ names_of_prefix p ms `sublist_of` (metric_name <$> ms)
          ∧ ∀ name, name ∈ names_of_prefix p ms ↔
              name ∈ metric_name <$> ms ∧ leading_token name = p)
  ∧ (∀ a b, Py.char_in "_" a = false ->
            group_of (a +:+ String "_" b) = a ∧ group_of a = a)
  ∧ (metric_name <$> ms
       = ["node_cpu_seconds_total"; "node_memory_bytes"; "go_gc_duration"] ->
     group_loop ms
     = {[ "node" := ["node_cpu_seconds_total"; "node_memory_bytes"];
          "go" := ["go_gc_duration"] ]}).
Proof.
  intros Hc Hne. split; [|split; [|split; [|split]]].
  - unfold group_metrics. by rewrite (ensure_cache_hit _ _ Hc Hne).
  - apply group_loop_lookup.
  - intros p. unfold names_of_prefix. split; [|split].
    + rewrite <- (list_fmap_id (first_by id _)). apply first_by_NoDup.
    + etrans; [apply first_by_sublist|apply sublist_filter].
    + intros name.
      rewrite <- (list_fmap_id (first_by id _)), first_by_keys, list_fmap_id.
      rewrite list_elem_of_filter. tauto.
  - intros a b Ha. unfold group_of.
    by rewrite (split_app _ _ _ Ha), (split_no_sep _ _ Ha).
  - intros Hnames. apply map_eq. intros p. rewrite group_loop_lookup.
    unfold names_of_prefix. rewrite Hnames. clear.
    destruct (decide (p = "node")) as [->|Hn]; [done|].
    destruct (decide (p = "go")) as [->|Hg]; [done|].
    rewrite lookup_insert_ne, lookup_singleton_ne by done.
    rewrite !filter_cons, filter_nil.
    change (leading_token "node_cpu_seconds_total") with "node".
    change (leading_token "node_memory_bytes") with "node".
    change (leading_token "go_gc_duration") with "go".
    by rewrite !decide_False by done.
Qed.


End Index.

(** ** The life of the cache *)

Section Lifecycle.

Context {F : Type}.
Variable float : string -> option F.

Lemma values_of_absent name (ms : list (metric F)) :
  name ∉ metric_name <$> ms -> values_of name ms = [].
Proof.
  unfold values_of. induction ms as [|m ms IH]; [done|].
  rewrite fmap_cons, not_elem_of_cons. intros [Hne Hin].
  rewrite filter_cons, decide_False by done. by apply IH.
Qed.

Lemma details_lines_absent name hc (ms : list (metric F)) :
  hc !! name = None ->
  name ∉ metric_name <$> ms ->
  details_lines name hc ms
  = [PDetailsFor name; PRule; PCurrentValues; PNoValues].
Proof.
  intros Hhc Hin. unfold details_lines.
  by rewrite Hhc, (values_of_absent _ _ Hin).
Qed.

(** C8. For a document that parses and a name that none of its samples
    has, the details lookup raises nothing and reports no type, no help
    and no value: on an explorer that reads the document at its first
    query, on the index made from the document when it holds samples,
    whatever the server answers, and on the index made from a document
    without samples when the server answers that document again. *)
Theorem details_of_missing_metric (text : string) (samples : list (metric F))
    (hc : gmap string meta) (name : string) (n : nat) :
  parse float text ∅ = (Ok samples, hc) ->
  name ∉ metric_name <$> samples ->
  let report := [PDetailsFor name; PRule; PCurrentValues; PNoValues] in
  show_metric_details float (constant_server text) name init
    = (Ok report, Explorer (Some samples) hc 1)
  ∧ (samples ≠ [] -> ∀ server,
       show_metric_details float server name (Explorer (Some samples) hc n)
       = (Ok report, Explorer (Some samples) hc n))
  ∧ (show_metric_details float (constant_server text) name
       (Explorer (Some samples) hc n)).1 = Ok report.
Proof.
  intros Hp Hname report.
  pose proof (parse_metadata_names _ _ _ _ _ Hp Hname) as Hhc.
  assert (Hhit : samples ≠ [] -> ∀ server,
    show_metric_details float server name (Explorer (Some samples) hc n)
    = (Ok report, Explorer (Some samples) hc n)).
  { intros Hne server. unfold show_metric_details.
    rewrite (ensure_cache_hit float server _ samples) by done.
    cbn [help_cache]. by rewrite details_lines_absent. }
  split; [|split; [done|]].
  - unfold show_metric_details, ensure_cache, fetch_metrics, constant_server.
    cbn [metrics_cache cache_truthy init help_cache requests].
    rewrite Hp. cbn [help_cache requests]. by rewrite details_lines_absent.
  - destruct samples as [|m ms]; [|by rewrite Hhit].
    assert (hc = ∅) as ->.
    { apply map_eq. intros k. rewrite lookup_empty.
      apply (parse_metadata_names _ _ _ _ _ Hp), not_elem_of_nil. }
    unfold show_metric_details, ensure_cache, fetch_metrics, constant_server.
    cbn [metrics_cache cache_truthy help_cache requests].
    rewrite Hp. cbn [help_cache requests fst]. by rewrite details_lines_absent.
Qed.

Lemma run_query_hit server q self ms :
  metrics_cache self = Some ms -> ms ≠ [] ->
  run_query float server q self = (Ok (answer_on ms (help_cache self) q), self).
Proof.
  intros Hc Hne.
  destruct q; cbn [run_query answer_on];
    unfold group_metrics, search_metrics, show_metric_details;
    by rewrite (ensure_cache_hit float server _ _ Hc Hne).
Qed.

Lemma ensure_cache_miss server self :
  cache_truthy (metrics_cache self) = false ->
  requests (ensure_cache float server self).2 = S (requests self).
Proof.
  intros Hc. unfold ensure_cache, fetch_metrics. rewrite Hc.
  destruct (server (requests self)) as [text|]; [|done].
  destruct (parse float text (help_cache self)) as [[ms|e] hc]; done.
Qed.

(** C2, as amended. Once metrics_cache holds a non-empty list, every
    sequence of grouping, search and details queries is answered from that
    list: no request is sent, nothing is parsed and the explorer is left as
    it was. While metrics_cache is None or holds the empty list, a query
    sends a request and parses the answer again. *)
Theorem cached_list_is_reused :
  (∀ server self ms qs,
     metrics_cache self = Some ms -> ms ≠ [] ->
     run_queries float server qs self
     = (Ok (answer_on ms (help_cache self) <$> qs), self))
  ∧ (∀ server self q,
       cache_truthy (metrics_cache self) = false ->
       requests (run_query float server q self).2 = S (requests self)).
Proof.
  split.
  - intros server self ms qs Hc Hne.
    induction qs as [|q qs IH]; [done|].
    cbn [run_queries]. by rewrite (run_query_hit _ _ _ _ Hc Hne), IH.
  - intros server self q Hc.
    pose proof (ensure_cache_miss server self Hc) as Hreq.
    destruct q; cbn [run_query];
      unfold group_metrics, search_metrics, show_metric_details;
      by destruct (ensure_cache float server self) as [[ms|e] self'].
Qed.

End Lifecycle.


(** *** More facts about split *)

Lemma split_snoc sep s :
  Py.split sep (s +:+ String sep EmptyString)
  = Py.split sep s ++ [EmptyString].
Proof.
  induction s as [|c s IH].
  - rewrite append_nil. cbn [Py.split]. by rewrite Ascii.eqb_refl.
  - rewrite append_cons. cbn [Py.split].
    destruct (Ascii.eqb c sep); [by rewrite IH|].
    rewrite IH. pose proof (split_nonempty sep s).
    by destruct (Py.split sep s).
Qed.

Lemma split_cons_inv sep s : ∀ a rest,
  Py.split sep s = a :: rest ->
  Py.char_in sep a = false
  ∧ ((rest = [] ∧ s = a)
     ∨ ∃ s', s = a +:+ String sep s' ∧ Py.split sep s' = rest).
Proof.
  induction s as [|c s IH]; intros a rest; cbn [Py.split].
  - intros [= <- <-]. split; [done|by left].
  - destruct (Ascii.eqb_spec c sep) as [->|Hne].
    + intros [= <- <-]. split; [done|]. right. by exists s.
    + destruct (Py.split sep s) as [|tok toks] eqn:Hs;
        [by destruct (split_nonempty sep s)|].
      intros [= <- <-]. destruct (IH tok toks eq_refl) as [Hc Hrest].
      split.
      * cbn [Py.char_in]. destruct (Ascii.eqb_spec sep c); [congruence|done].
      * destruct Hrest as [[-> ->]|(s' & -> & Hs')]; [by left|].
        right. by exists s'.
Qed.

Lemma split_two sep s a b :
  Py.split sep s = [a; b] ->
  s = a +:+ String sep b
  ∧ Py.char_in sep a = false ∧ Py.char_in sep b = false.
Proof.
  intros Hs. destruct (split_cons_inv _ _ _ _ Hs) as [Ha [[[=] _]|Hrest]].
  destruct Hrest as (s' & -> & Hs').
  destruct (split_cons_inv _ _ _ _ Hs') as [Hb [[_ ->]|(s2 & _ & H2)]];
    [done|by destruct (split_nonempty sep s2)].
Qed.

Lemma split_tokens sep s tok :
  tok ∈ Py.split sep s -> Py.char_in sep tok = false.
Proof.
  remember (Py.split sep s) as toks eqn:Hs. symmetry in Hs.
  revert s Hs. induction toks as [|a rest IH]; intros s Hs.
  - by intros ?%elem_of_nil.
  - destruct (split_cons_inv _ _ _ _ Hs) as [Ha Hrest].
    intros [->|Hin]%elem_of_cons; [done|].
    destruct Hrest as [[-> _]|(s' & _ & Hs')];
      [by apply elem_of_nil in Hin|by eapply IH].
Qed.

Lemma split_length sep s :
  length (Py.split sep s) = S (count_char sep s).
Proof.
  induction s as [|c s IH]; [done|]. cbn [Py.split count_char].
  rewrite (Ascii.eqb_sym sep c). destruct (Ascii.eqb c sep).
  - cbn. by rewrite IH.
  - pose proof (split_nonempty sep s).
    destruct (Py.split sep s); [done|]. cbn in *. lia.
Qed.

Lemma char_in_app c a b :
  Py.char_in c (a +:+ b) = Py.char_in c a || Py.char_in c b.
Proof.
  induction a as [|d a IH]; [done|]. rewrite append_cons.
  cbn [Py.char_in]. by destruct (Ascii.eqb c d).
Qed.

Lemma take_drop_str n s : Py.take_str n s +:+ Py.drop_str n s = s.
Proof.
  revert s. induction n as [|n IH]; intros s; [done|].
  destruct s as [|c s]; [done|]. cbn [Py.take_str Py.drop_str].
  by rewrite append_cons, IH.
Qed.


(** *** What findall can find *)

Lemma span_inv p s a b :
  Py.span p s = (a, b) ->
  s = a +:+ b ∧ all_chars p a = true
  ∧ match b with EmptyString => True | String c _ => p c = false end.
Proof.
  revert a b. induction s as [|c s IH]; intros a b; cbn [Py.span].
  - by intros [= <- <-].
  - destruct (p c) eqn:Hc; [|by intros [= <- <-]].
    destruct (Py.span p s) as [a' b'].
    intros [= <- <-]. destruct (IH a' b' eq_refl) as (-> & Ha & Hb).
    split; [done|]. cbn [all_chars]. by rewrite Hc, Ha.
Qed.

Lemma label_pair_at_inv s key value rest :
  Py.label_pair_at s = Some (key, value, rest) ->
  s = key +:+ String "=" (String Py.dquote (value +:+ String Py.dquote rest))
  ∧ Py.truthy key = true
  ∧ all_chars Py.is_word key = true
  ∧ all_chars Py.not_dquote value = true.
Proof.
  unfold Py.label_pair_at.
  destruct (Py.span Py.is_word s) as [k r1] eqn:Hk.
  apply span_inv in Hk as (-> & Hw & _).
  destruct k as [|k0 k]; [done|].
  destruct r1 as [|e [|q r2]]; try done.
  destruct (Ascii.eqb_spec e "=") as [->|]; [|done].
  destruct (Ascii.eqb_spec q Py.dquote) as [->|]; [|done]. cbn [andb].
  destruct (Py.span Py.not_dquote r2) as [v r3] eqn:Hv.
  apply span_inv in Hv as (-> & Hnq & Hq).
  destruct r3 as [|q' r4]; [done|].
  intros [= <- <- <-].
  unfold Py.not_dquote in Hq. apply negb_false_iff in Hq.
  apply Ascii.eqb_eq in Hq. by subst q'.
Qed.

Lemma occurs_here p r : occurs p (p +:+ r).
Proof. by exists EmptyString, r. Qed.

Lemma occurs_after a p s : occurs p s -> occurs p (a +:+ s).
Proof.
  intros (x & y & ->). exists (a +:+ x), y. by rewrite append_assoc'.
Qed.

Lemma occurs_before p s b : occurs p s -> occurs p (s +:+ b).
Proof.
  intros (x & y & ->). exists x, (y +:+ b). by rewrite !append_assoc'.
Qed.

Lemma occurs_char_in c p s :
  occurs p s -> Py.char_in c p = true -> Py.char_in c s = true.
Proof.
  intros (x & y & ->) Hc. rewrite !char_in_app, Hc.
  by rewrite orb_true_r.
Qed.

Lemma findall_sound s : ∀ key value,
  (key, value) ∈ findall s ->
  Py.truthy key = true
  ∧ all_chars Py.is_word key = true
  ∧ all_chars Py.not_dquote value = true
  ∧ occurs (pair_text key value) s.
Proof.
  remember (String.length s) as n eqn:Hn. revert s Hn.
  induction n as [n IH] using lt_wf_ind. intros s -> key value.
  destruct s as [|c s]; [simp findall; by intros ?%elem_of_nil|].
  rewrite findall_cons.
  destruct (Py.label_pair_at (String c s)) as [[[k v] rest]|] eqn:Hm.
  - pose proof (label_pair_at_shorter _ _ _ _ Hm) as Hlen.
    apply label_pair_at_inv in Hm as (Hs & Hk & Hw & Hv).
    intros [[= -> ->]|Hin]%elem_of_cons.
    + repeat split; try done. rewrite Hs. unfold pair_text.
      replace (k +:+ String "=" (String Py.dquote
                 (v +:+ String Py.dquote rest)))
        with ((k +:+ String "=" (String Py.dquote
                 (v +:+ String Py.dquote EmptyString))) +:+ rest).
      * apply occurs_here.
      * rewrite append_assoc'. f_equal. rewrite !append_cons. do 2 f_equal.
        by rewrite append_assoc'.
    + destruct (IH _ Hlen rest eq_refl _ _ Hin) as (? & ? & ? & Ho).
      repeat split; try done. rewrite Hs.
      apply occurs_after.
      change (String "=" (String Py.dquote (v +:+ String Py.dquote rest)))
        with (String "=" (String Py.dquote EmptyString)
              +:+ (v +:+ String Py.dquote rest)).
      apply occurs_after, occurs_after.
      change (String Py.dquote rest)
        with (String Py.dquote EmptyString +:+ rest).
      by apply occurs_after.
  - intros Hin.
    destruct (IH (String.length s) (Nat.lt_succ_diag_r _) s eq_refl _ _ Hin)
      as (? & ? & ? & Ho).
    repeat split; try done.
    change (String c s) with (String c EmptyString +:+ s).
    by apply occurs_after.
Qed.

Lemma findall_without_quote s :
  Py.char_in Py.dquote s = false -> findall s = [].
Proof.
  intros Hs. destruct (findall s) as [|[k v] l] eqn:Hf; [done|].
  assert (Hin : (k, v) ∈ findall s) by (rewrite Hf; apply elem_of_cons; auto).
  apply findall_sound in Hin as (_ & _ & _ & Ho).
  eapply (occurs_char_in Py.dquote) in Ho; [congruence|].
  unfold pair_text. rewrite char_in_app. cbn. by rewrite orb_true_r.
Qed.

Lemma overwrite_lookup_elem pairs (k v : string) :
  foldl (λ (lbls : gmap string string) p, <[p.1 := p.2]> lbls) ∅ pairs !! k
    = Some v ->
  (k, v) ∈ pairs.
Proof.
  rewrite overwrite_last_wins. unfold last_value.
  destruct (last _) as [[k' v']|] eqn:Hl; [|done].
  intros [= <-]. apply last_Some_elem_of in Hl.
  apply list_elem_of_filter in Hl as [Hk Hin]. cbn in Hk. by subst k'.
Qed.

(** ** Further properties of the parser *)

Section Parser_more.

Context {F : Type}.
Variable float : string -> option F.

(** *** The metadata table only grows *)

Lemma step_metadata_grows lo hc line lo' hc' :
  step float lo hc line = Ok (lo', hc') -> hc ⊆ hc'.
Proof.
  unfold step.
  destruct (Py.startswith "# HELP " line).
  { destruct (subscript _ 1); [|done]. by intros [= _ <-]. }
  destruct (Py.startswith "# TYPE " line).
  { destruct (subscript _ 1); [|done]. by intros [= _ <-]. }
  destruct (negb (Py.startswith "#" line) && Py.truthy (Py.strip line));
    [|by intros [= _ <-]].
  destruct (parse_sample float line) as [[[name v] lbls]|e];
    [|by intros [= _ <-]].
  intros [= _ <-]. destruct (hc !! name) eqn:Hn; [done|].
  by apply insert_subseteq.
Qed.

Lemma for_lines_metadata_grows lines : ∀ lo hc r hc',
  for_lines float lines lo hc = (r, hc') -> hc ⊆ hc'.
Proof.
  induction lines as [|line rest IH]; intros lo hc r hc'; cbn [for_lines].
  - by intros [= _ <-].
  - destruct (step float lo hc line) as [[lo1 hc1]|e] eqn:Hs.
    + intros Hrun. etrans; [by eapply step_metadata_grows|by eapply IH].
    + by intros [= _ <-].
Qed.

Lemma parse_metadata_grows text hc r hc' :
  parse float text hc = (r, hc') -> hc ⊆ hc'.
Proof.
  unfold parse.
  destruct (for_lines float _ _ hc) as [r0 hc0] eqn:Hrun.
  intros [= _ <-]. by eapply for_lines_metadata_grows.
Qed.

Lemma fetch_metrics_effect server (self : explorer F) :
  help_cache self ⊆ help_cache (fetch_metrics float server self).2
  ∧ metrics_cache (fetch_metrics float server self).2 = metrics_cache self
  ∧ requests (fetch_metrics float server self).2 = S (requests self).
Proof.
  unfold fetch_metrics. destruct (server (requests self)) as [text|]; [|done].
  destruct (parse float text (help_cache self)) as [r hc] eqn:Hp.
  cbn. split; [|done]. by eapply parse_metadata_grows.
Qed.

Lemma ensure_cache_metadata_grows server (self : explorer F) :
  help_cache self ⊆ help_cache (ensure_cache float server self).2.
Proof.
  unfold ensure_cache. destruct (cache_truthy (metrics_cache self)); [done|].
  pose proof (fetch_metrics_effect server self) as [Hg _].
  by destruct (fetch_metrics float server self) as [[ms|e] self'].
Qed.

(** X1. No fetch and no query removes or changes an entry of help_cache,
    whether it returns or raises: the table after is an extension of the
    table before. A fetch leaves metrics_cache alone and counts one
    request. *)
Theorem metadata_is_never_overwritten server (self : explorer F) (q : query) :
  help_cache self ⊆ help_cache (fetch_metrics float server self).2
  ∧ metrics_cache (fetch_metrics float server self).2 = metrics_cache self
  ∧ requests (fetch_metrics float server self).2 = S (requests self)
  ∧ help_cache self ⊆ help_cache (run_query float server q self).2.
Proof.
  destruct (fetch_metrics_effect server self) as (H1 & H2 & H3).
  repeat split; try done.
  pose proof (ensure_cache_metadata_grows server self) as Hg.
  destruct q; cbn [run_query];
    unfold group_metrics, search_metrics, show_metric_details;
    by destruct (ensure_cache float server self) as [[ms|e] self'].
Qed.

(** *** Every sample has a metadata entry *)

Lemma first_context_of_sample name lines : ∀ read,
  name ∈ metric_name <$> samples_of float read lines ->
  is_Some (first_context float name read lines).
Proof.
  induction lines as [|line rest IH]; intros read;
    cbn [samples_of first_context].
  - by intros ?%elem_of_nil.
  - destruct (decoded float line) as [[[name' v] lbls]|]; [|apply IH].
    rewrite fmap_cons, elem_of_cons. cbn [metric_name].
    case_bool_decide as Hn; [by eexists|].
    intros [->|Hin]; [done|by apply IH].
Qed.

(** X2. After a parse that returns, the names with an entry in help_cache
    are the names that had one before and the names of the samples: every
    sample has metadata, and no other name gets any. *)
Theorem metadata_names_after_parse text hc (samples : list (metric F)) hc' :
  parse float text hc = (Ok samples, hc') ->
  ∀ name, is_Some (hc' !! name) ↔
    is_Some (hc !! name) ∨ name ∈ metric_name <$> samples.
Proof.
  intros [-> Hhc]%parse_context name. rewrite Hhc.
  destruct (hc !! name) as [e|] eqn:He.
  - split; [by left|by eexists].
  - split.
    + intros [e' He']. right. by eapply first_context_named.
    + intros [[? [=]]|Hin]. by apply first_context_of_sample.
Qed.

(** *** Parsing the same text again *)

Lemma step_result_independent lo hc1 hc2 line :
  match step float lo hc1 line, step float lo hc2 line with
  | Ok (lo1, _), Ok (lo2, _) => lo1 = lo2
  | Raise e1, Raise e2 => e1 = e2
  | _, _ => False
  end.
Proof.
  unfold step.
  destruct (Py.startswith "# HELP " line).
  { by destruct (subscript _ 1). }
  destruct (Py.startswith "# TYPE " line).
  { by destruct (subscript _ 1). }
  destruct (negb (Py.startswith "#" line) && Py.truthy (Py.strip line));
    [|done].
  by destruct (parse_sample float line) as [[[name v] lbls]|e].
Qed.

Lemma for_lines_result_independent lines : ∀ lo hc1 hc2,
  (for_lines float lines lo hc1).1 = (for_lines float lines lo hc2).1.
Proof.
  induction lines as [|line rest IH]; intros lo hc1 hc2; [done|].
  cbn [for_lines].
  pose proof (step_result_independent lo hc1 hc2 line) as Hs.
  destruct (step float lo hc1 line) as [[lo1 hc1']|e1],
           (step float lo hc2 line) as [[lo2 hc2']|e2]; try done.
  - subst lo2. apply IH.
  - by subst e2.
Qed.

Lemma parse_result_independent text hc1 hc2 :
  (parse float text hc1).1 = (parse float text hc2).1.
Proof.
  rewrite !parse_of_lines.
  pose proof (for_lines_result_independent (Py.split "010" text)
                (Locals [] EmptyString EmptyString) hc1 hc2) as H.
  destruct (for_lines float _ _ hc1) as [[lo1|e1] hc1'],
           (for_lines float _ _ hc2) as [[lo2|e2] hc2']; cbn in *; congruence.
Qed.

(** X3. The samples of a text, or the exception its parse ends with, do
    not depend on the metadata table the parse starts from; and a second
    parse of the same text, started from the table the first one left,
    returns the same samples and leaves that table as it is. *)
Theorem parse_again_changes_nothing text :
  (∀ hc1 hc2, (parse float text hc1).1 = (parse float text hc2).1)
  ∧ (∀ hc samples hc',
       parse float text hc = (Ok samples, hc') ->
       parse float text hc' = (Ok samples, hc')).
Proof.
  split; [apply parse_result_independent|].
  intros hc samples hc' Hp.
  pose proof (parse_result_independent text hc hc') as Hr. rewrite Hp in Hr.
  destruct (parse float text hc') as [r hc2] eqn:Hp2. cbn in Hr. subst r.
  f_equal. apply map_eq. intros name.
  destruct (parse_context _ _ _ _ _ Hp) as [_ H1].
  destruct (parse_context _ _ _ _ _ Hp2) as [_ H2].
  rewrite H2. destruct (hc' !! name) as [e|] eqn:He; [done|].
  rewrite H1 in He. by destruct (hc !! name).
Qed.

(** *** Lines without effect *)

Lemma rstrip_first_not_space c s :
  Py.isspace c = false -> Py.rstrip (String c s) ≠ EmptyString.
Proof.
  intros Hc. cbn [Py.rstrip]. rewrite Hc. by destruct (Py.rstrip s).
Qed.

Lemma blank_line_facts line :
  Py.strip line = EmptyString ->
  Py.startswith "# HELP " line = false
  ∧ Py.startswith "# TYPE " line = false
  ∧ decoded float line = None.
Proof.
  intros Hb.
  assert (Hc : Py.startswith "#" line = false).
  { destruct line as [|c line]; [done|]. cbn [Py.startswith].
    destruct (Ascii.eqb_spec "#" c) as [<-|]; [|done].
    exfalso. unfold Py.strip in Hb. cbn [Py.lstrip] in Hb.
    change (Py.isspace "#") with false in Hb. cbn iota in Hb.
    by apply rstrip_first_not_space in Hb. }
  destruct (not_comment_not_marker _ Hc) as [-> ->].
  unfold decoded, sample_line. by rewrite Hb, andb_false_r.
Qed.

Lemma comment_line_facts line :
  Py.startswith "#" line = true -> decoded float line = None.
Proof. intros Hc. unfold decoded, sample_line. by rewrite Hc. Qed.

(** X4. A comment line that is neither a HELP nor a TYPE line, and a line
    that is empty or made of white space, can be removed from a document
    without any change to what the loop returns; in particular a text and
    the same text with a final newline parse alike. *)
Theorem comments_and_blank_lines_are_inert :
  (∀ line,
     Py.startswith "#" line = true ->
     Py.startswith "# HELP " line = false ->
     Py.startswith "# TYPE " line = false ->
     ∀ pre post lo hc,
       for_lines float (pre ++ line :: post) lo hc
       = for_lines float (pre ++ post) lo hc)
  ∧ (∀ line,
       Py.strip line = EmptyString ->
       ∀ pre post lo hc,
         for_lines float (pre ++ line :: post) lo hc
         = for_lines float (pre ++ post) lo hc)
  ∧ (∀ text hc,
       parse float (text +:+ String "010" EmptyString) hc
       = parse float text hc).
Proof.
  split; [|split].
  - intros line Hc Hh Ht pre post lo hc. apply for_lines_skip.
    intros lo' hc'. apply step_no_effect; [done..|].
    by apply comment_line_facts.
  - intros line Hb pre post lo hc. apply for_lines_skip.
    intros lo' hc'.
    destruct (blank_line_facts _ Hb) as (Hh & Ht & Hd).
    by apply step_no_effect.
  - intros text hc. rewrite !parse_of_lines, split_snoc.
    rewrite <- (app_nil_r (Py.split "010" text)) at 2.
    rewrite (for_lines_skip float EmptyString); [done|].
    intros lo' hc'. by apply step_no_effect.
Qed.

(** *** What an accepted sample line looks like *)

Lemma parse_sample_inv line name v lbls :
  parse_sample float line = Ok (name, v, lbls) ->
  ∃ name_part value_str,
    Py.split " " line = [name_part; value_str]
    ∧ float value_str = Some v
    ∧ ((Py.char_in "{" name_part = false ∧ name = name_part ∧ lbls = ∅)
       ∨ ∃ i j,
           Py.index "{" name_part = Some i
           ∧ Py.rindex "}" name_part = Some j
           ∧ name = Py.take_str i name_part
           ∧ lbls = foldl (λ (m : gmap string string) p, <[p.1 := p.2]> m) ∅
                      (findall (Py.slice (i + 1) j name_part))).
Proof.
  unfold parse_sample.
  destruct (Py.split " " line) as [|a [|b [|c r]]]; try done.
  intros H. exists a, b. split; [done|].
  destruct (Py.char_in "{" a) eqn:Hb.
  - unfold parse_labelled in H.
    destruct (Py.index "{" a) as [i|]; [|done].
    destruct (Py.rindex "}" a) as [j|]; [|done]. cbn in H.
    destruct (float b) as [v'|]; [|done]. cbn in H.
    injection H as <- <- <-. split; [done|]. right. by exists i, j.
  - cbn in H. destruct (float b) as [v'|]; [|done]. cbn in H.
    injection H as <- <- <-. split; [done|]. by left.
Qed.

Lemma index_take_str c s i :
  Py.index c s = Some i -> Py.char_in c (Py.take_str i s) = false.
Proof.
  revert i. induction s as [|d s IH]; intros i; [done|].
  cbn [Py.index]. destruct (Ascii.eqb c d) eqn:Hcd.
  - by intros [= <-].
  - destruct (Py.index c s) as [i'|]; [|done]. intros [= <-].
    cbn [Py.take_str Py.char_in]. rewrite Hcd. by apply IH.
Qed.

Lemma char_in_take_str c n s :
  Py.char_in c s = false -> Py.char_in c (Py.take_str n s) = false.
Proof.
  intros Hs. rewrite <- (take_drop_str n s), char_in_app in Hs.
  by apply orb_false_elim in Hs as [? _].
Qed.

Lemma sample_name_facts line name v lbls :
  parse_sample float line = Ok (name, v, lbls) ->
  Py.char_in " " name = false ∧ Py.char_in "{" name = false
  ∧ ∃ r, line = name +:+ r.
Proof.
  intros (np & vs & Hs & _ & Hcases)%parse_sample_inv.
  destruct (split_two _ _ _ _ Hs) as (-> & Hnp & _).
  destruct Hcases as [(Hb & -> & _)|(i & j & Hi & _ & -> & _)].
  - split; [done|]. split; [done|]. by eexists.
  - split; [by apply char_in_take_str|]. split; [by eapply index_take_str|].
    exists (Py.drop_str i np +:+ String " " vs).
    by rewrite <- append_assoc', take_drop_str.
Qed.

Lemma samples_of_elem m lines : ∀ read,
  m ∈ samples_of float read lines ->
  ∃ line, line ∈ lines
    ∧ parse_sample float line = Ok (metric_name m, value m, labels m).
Proof.
  induction lines as [|line rest IH]; intros read; cbn [samples_of].
  - by intros ?%elem_of_nil.
  - assert (Hrest : m ∈ samples_of float (line :: read) rest ->
      ∃ line', line' ∈ line :: rest
        ∧ parse_sample float line'
          = Ok (metric_name m, value m, labels m)).
    { intros (l' & Hin & Hp)%IH. exists l'. split; [|done].
      apply elem_of_cons. by right. }
    destruct (decoded float line) as [[[name v] lbls]|] eqn:Hd; [|done].
    intros [->|Hin]%elem_of_cons; [|by apply Hrest].
    exists line. split; [apply elem_of_cons; by left|].
    by destruct (decoded_facts _ _ _ Hd) as (_ & _ & _ & ->).
Qed.

(** X5. The name of every sample a parse returns is the beginning of a
    line of the text and holds no space, no opening brace and no
    newline. *)
Theorem sample_names_are_clean text hc (samples : list (metric F)) hc' m :
  parse float text hc = (Ok samples, hc') ->
  m ∈ samples ->
  Py.char_in " " (metric_name m) = false
  ∧ Py.char_in "{" (metric_name m) = false
  ∧ Py.char_in "010" (metric_name m) = false
  ∧ ∃ line r, line ∈ Py.split "010" text ∧ line = metric_name m +:+ r.
Proof.
  intros [-> _]%parse_context (line & Hin & Hp)%samples_of_elem.
  destruct (sample_name_facts _ _ _ _ Hp) as (Hsp & Hb & r & Hline).
  split; [done|]. split; [done|]. split; [|by exists line, r].
  pose proof (split_tokens _ _ _ Hin) as Hnl.
  rewrite Hline, char_in_app in Hnl.
  by apply orb_false_elim in Hnl as [? _].
Qed.

(** X6. The decoder accepts a line only if it holds exactly one space: a
    sample line with none or with more than one (a timestamp after the
    value, a space in a label value) is dropped. *)
Theorem accepted_lines_have_one_space :
  (∀ line name v lbls,
     parse_sample float line = Ok (name, v, lbls) ->
     count_char " " line = 1)
  ∧ (∀ line,
       sample_line line = true ->
       count_char " " line ≠ 1 ->
       ∀ pre post lo hc,
         for_lines float (pre ++ line :: post) lo hc
         = for_lines float (pre ++ post) lo hc).
Proof.
  split.
  - intros line name v lbls (np & vs & Hs & _)%parse_sample_inv.
    pose proof (split_length " " line) as Hl. rewrite Hs in Hl.
    cbn in Hl. lia.
  - intros line Hs Hc pre post lo hc. apply for_lines_skip.
    intros lo' hc'. apply step_decode_fails; [done|].
    left. intros a b Hab.
    pose proof (split_length " " line) as Hl. rewrite Hab in Hl.
    cbn in Hl. lia.
Qed.


(** *** The labels of an accepted line *)

Lemma occurs_slice p a b s : occurs p (Py.slice a b s) -> occurs p s.
Proof.
  unfold Py.slice. intros Ho.
  rewrite <- (take_drop_str a s). apply occurs_after.
  rewrite <- (take_drop_str (b - a) (Py.drop_str a s)).
  by apply occurs_before.
Qed.

(** X7. Each label of an accepted line was written in the line as a pair:
    its key is a non-empty run of word characters, its value holds no
    double quote, and the text of the pair occurs in the line. *)
Theorem labels_come_from_written_pairs line name v lbls (k x : string) :
  parse_sample float line = Ok (name, v, lbls) ->
  lbls !! k = Some x ->
  Py.truthy k = true
  ∧ all_chars Py.is_word k = true
  ∧ all_chars Py.not_dquote x = true
  ∧ occurs (pair_text k x) line.
Proof.
  intros (np & vs & Hs & _ & Hcases)%parse_sample_inv Hk.
  destruct Hcases as [(_ & _ & ->)|(i & j & _ & _ & _ & ->)]; [done|].
  apply overwrite_lookup_elem, findall_sound in Hk as (? & ? & ? & Ho).
  repeat split; try done.
  destruct (split_two _ _ _ _ Hs) as (-> & _ & _).
  apply occurs_before. by eapply occurs_slice.
Qed.

(** X8. A label block in which no double quote is written, the empty block
    among them, is no error: the line gives a sample without labels. *)
Theorem label_block_without_quote name raw tail value_str v :
  Py.char_in "{" name = false ->
  Py.char_in "}" tail = false ->
  Py.char_in " " (name +:+ String "{" (raw +:+ String "}" tail)) = false ->
  Py.char_in " " value_str = false ->
  float value_str = Some v ->
  Py.char_in Py.dquote raw = false ->
  parse_sample float
    ((name +:+ String "{" (raw +:+ String "}" tail)) +:+ String " " value_str)
  = Ok (name, v, ∅).
Proof.
  intros Hn Ht Hsp Hv Hf Hq. unfold parse_sample.
  rewrite (split_app _ _ _ Hsp), (split_no_sep _ _ Hv).
  assert (Hb : Py.char_in "{"
                 (name +:+ String "{" (raw +:+ String "}" tail)) = true).
  { rewrite char_in_app. cbn. by rewrite orb_true_r. }
  rewrite Hb, (parse_labelled_block _ _ _ Hn Ht), Hf.
  by rewrite (findall_without_quote _ Hq).
Qed.


(** *** The only exception of a parse *)

Lemma split1_with_sep sep s :
  Py.char_in sep s = true -> ∃ a b, Py.split1 sep s = [a; b].
Proof.
  induction s as [|c s IH]; [done|]. cbn [Py.char_in Py.split1].
  rewrite (Ascii.eqb_sym c sep). destruct (Ascii.eqb sep c); [by eexists _, _|].
  intros (a & b & ->)%IH. by eexists _, _.
Qed.

Lemma subscript_split1 sep s :
  (∀ e, subscript (Py.split1 sep s) 1 = Raise e ->
        e = IndexError ∧ Py.char_in sep s = false)
  ∧ (Py.char_in sep s = true -> ∃ t, subscript (Py.split1 sep s) 1 = Ok t).
Proof.
  destruct (Py.char_in sep s) eqn:Hc.
  - destruct (split1_with_sep _ _ Hc) as (a & b & ->).
    split; [done|]. intros _. by exists b.
  - rewrite (split1_no_sep _ _ Hc). split; [|done].
    by intros e [= <-].
Qed.

Lemma step_raises lo hc line e :
  step float lo hc line = Raise e -> e = IndexError ∧ marker_without_text line.
Proof.
  unfold step, marker_without_text.
  destruct (Py.startswith "# HELP " line) eqn:Hh.
  { destruct (subscript _ 1) as [h|e'] eqn:Hs; [done|]. cbn.
    intros [= <-]. apply (subscript_split1 " ") in Hs as [-> Hc]. auto. }
  destruct (Py.startswith "# TYPE " line) eqn:Ht.
  { destruct (subscript _ 1) as [h|e'] eqn:Hs; [done|]. cbn.
    intros [= <-]. apply (subscript_split1 " ") in Hs as [-> Hc]. auto. }
  destruct (negb (Py.startswith "#" line) && Py.truthy (Py.strip line));
    [|done].
  by destruct (parse_sample float line) as [[[??]?]|].
Qed.

Lemma step_returns lo hc line :
  ¬ marker_without_text line -> ∃ lo' hc', step float lo hc line = Ok (lo', hc').
Proof.
  intros Hm. destruct (step float lo hc line) as [[lo' hc']|e] eqn:Hs;
    [by eexists _, _|].
  by apply step_raises in Hs as [_ ?].
Qed.

Lemma for_lines_raises lines : ∀ lo hc e hc',
  for_lines float lines lo hc = (Raise e, hc') ->
  e = IndexError ∧ ∃ line, line ∈ lines ∧ marker_without_text line.
Proof.
  induction lines as [|line rest IH]; intros lo hc e hc'; cbn [for_lines];
    [done|].
  destruct (step float lo hc line) as [[lo1 hc1]|e1] eqn:Hs.
  - intros (-> & l & Hin & Hm)%IH. split; [done|].
    exists l. split; [|done]. apply elem_of_cons. by right.
  - intros [= <- <-]. apply step_raises in Hs as [-> Hm]. split; [done|].
    exists line. split; [|done]. apply elem_of_cons. by left.
Qed.

Lemma for_lines_returns lines : ∀ lo hc,
  (∀ line, line ∈ lines -> ¬ marker_without_text line) ->
  ∃ lo' hc', for_lines float lines lo hc = (Ok lo', hc').
Proof.
  induction lines as [|line rest IH]; intros lo hc Hall; cbn [for_lines].
  - by eexists _, _.
  - destruct (step_returns lo hc line) as (lo1 & hc1 & ->).
    + apply Hall, elem_of_cons. by left.
    + apply IH. intros l Hin. apply Hall, elem_of_cons. by right.
Qed.

Lemma step_marker_raises lo hc line :
  marker_without_text line -> step float lo hc line = Raise IndexError.
Proof.
  intros [Hm Hc]. unfold step.
  destruct (Py.startswith "# HELP " line).
  { by rewrite (split1_no_sep _ _ Hc). }
  destruct Hm as [?|Ht]; [done|]. by rewrite Ht, (split1_no_sep _ _ Hc).
Qed.

Lemma for_lines_marker_raises lines : ∀ lo hc line,
  line ∈ lines -> marker_without_text line ->
  ∃ hc', for_lines float lines lo hc = (Raise IndexError, hc').
Proof.
  induction lines as [|l rest IH]; intros lo hc line Hin Hm.
  - by apply elem_of_nil in Hin.
  - cbn [for_lines].
    destruct (step float lo hc l) as [[lo1 hc1]|e] eqn:Hs.
    + apply elem_of_cons in Hin as [->|Hin]; [|by eapply IH].
      by rewrite (step_marker_raises _ _ _ Hm) in Hs.
    + apply step_raises in Hs as [-> _]. by eexists.
Qed.

(** X9. The one exception a parse can end with is the IndexError of a HELP
    or TYPE line that has no space after its name: a parse raises exactly
    when the text holds such a line, and returns for every other text. *)
Theorem parse_raises_only_on_marker_without_text text hc :
  (∀ e hc', parse float text hc = (Raise e, hc') ->
     e = IndexError
     ∧ ∃ line, line ∈ Py.split "010" text ∧ marker_without_text line)
  ∧ (∀ line, line ∈ Py.split "010" text -> marker_without_text line ->
     ∃ hc', parse float text hc = (Raise IndexError, hc'))
  ∧ ((∀ line, line ∈ Py.split "010" text -> ¬ marker_without_text line) ->
     ∃ samples hc', parse float text hc = (Ok samples, hc')).
Proof.
  rewrite parse_of_lines. split; [|split].
  - intros e hc'.
    destruct (for_lines float _ _ hc) as [[lo|e'] hc1] eqn:Hrun; [done|].
    intros [= <- <-]. by eapply for_lines_raises.
  - intros line Hin Hm.
    destruct (for_lines_marker_raises (Py.split "010" text)
                (Locals [] EmptyString EmptyString) hc line Hin Hm)
      as (hc' & ->).
    by eexists.
  - intros Hall.
    destruct (for_lines_returns (Py.split "010" text)
                (Locals [] EmptyString EmptyString) hc Hall)
      as (lo & hc1 & ->).
    by eexists _, _.
Qed.

End Parser_more.


(** ** Further properties of the explorer *)

Section Explorer_more.

Context {F : Type}.
Variable float : string -> option F.

(** *** An invariant of every run *)

Lemma parse_samples_have_metadata text hc (samples : list (metric F)) hc' m :
  parse float text hc = (Ok samples, hc') ->
  m ∈ samples -> is_Some (hc' !! metric_name m).
Proof.
  intros [-> Hhc]%parse_context Hin. rewrite Hhc.
  destruct (hc !! metric_name m); [by eexists|].
  apply first_context_of_sample. by apply list_elem_of_fmap_2.
Qed.

Lemma ensure_cache_invariant server (self : explorer F) :
  cached_names_have_metadata self ->
  cached_names_have_metadata (ensure_cache float server self).2.
Proof.
  intros Hinv. unfold ensure_cache.
  destruct (cache_truthy (metrics_cache self)); [done|].
  unfold fetch_metrics. destruct (server (requests self)) as [text|]; [|done].
  destruct (parse float text (help_cache self)) as [[ms|e] hc] eqn:Hp.
  - intros ms' m [= <-] Hin. cbn. by eapply parse_samples_have_metadata.
  - intros ms' m Hc Hin. cbn in *.
    eapply lookup_weaken_is_Some; [by eapply Hinv|].
    by eapply parse_metadata_grows.
Qed.

Lemma ensure_cache_requests server (self : explorer F) :
  (requests self ≤ requests (ensure_cache float server self).2)%nat
  ∧ (requests (ensure_cache float server self).2 ≤ S (requests self))%nat.
Proof.
  unfold ensure_cache. destruct (cache_truthy (metrics_cache self)); [cbn; lia|].
  destruct (fetch_metrics_effect float server self) as (_ & _ & Hr).
  destruct (fetch_metrics float server self) as [[ms|e] self']; cbn in *; lia.
Qed.

Lemma run_query_state server q (self : explorer F) :
  (run_query float server q self).2 = (ensure_cache float server self).2.
Proof.
  destruct q; cbn [run_query];
    unfold group_metrics, search_metrics, show_metric_details;
    by destruct (ensure_cache float server self) as [[ms|e] self'].
Qed.

Lemma run_queries_invariant server qs : ∀ (self : explorer F) r self',
  run_queries float server qs self = (r, self') ->
  cached_names_have_metadata self ->
  cached_names_have_metadata self'
  ∧ (requests self' ≤ requests self + length qs)%nat.
Proof.
  induction qs as [|q qs IH]; intros self r self'; cbn [run_queries].
  - intros [= _ <-] Hinv. split; [done|lia].
  - intros Hrun Hinv.
    pose proof (run_query_state server q self) as Hst.
    pose proof (ensure_cache_invariant server self Hinv) as Hinv1.
    pose proof (ensure_cache_requests server self) as [_ Hreq].
    rewrite <- Hst in Hinv1, Hreq.
    destruct (run_query float server q self) as [[a|e] self1].
    + destruct (run_queries float server qs self1) as [r2 self2] eqn:Hrest.
      destruct (IH _ _ _ Hrest Hinv1) as [Hinv2 Hreq2].
      assert (self' = self2) as -> by (destruct r2; by injection Hrun).
      split; [done|]. cbn in *. lia.
    + injection Hrun as _ <-. split; [done|]. cbn in *. lia.
Qed.

(** X10. After any run of queries on a new explorer, whatever the server
    answered and whether the run ended with an exception or not, every
    sample of the cached list has an entry in help_cache, and no more
    requests were sent than queries were made. *)
Theorem every_cached_sample_has_metadata server qs r (self : explorer F) :
  run_queries float server qs init = (r, self) ->
  cached_names_have_metadata self ∧ (requests self ≤ length qs)%nat.
Proof.
  intros Hrun. apply (run_queries_invariant server qs init r self Hrun).
  by intros ms m.
Qed.

(** X11. After any run of queries on a new explorer that left a non-empty
    list in the cache, the details of a name that has samples are the
    header, the type and the help of the entry of the name, and one value
    line for each sample of the name in the order of the list; the line
    that says that no value was found is not printed, and the explorer is
    left as it was. *)
Theorem details_of_present_metric server qs r (self : explorer F) ms name :
  run_queries float server qs init = (r, self) ->
  metrics_cache self = Some ms ->
  name ∈ metric_name <$> ms ->
  ∃ e, help_cache self !! name = Some e
    ∧ values_of name ms ≠ []
    ∧ ∀ server',
        show_metric_details float server' name self
        = (Ok ([PDetailsFor name; PRule; PType (meta_type e);
                PHelp (meta_help e); PCurrentValues]
               ++ (print_value <$> values_of name ms)), self).
Proof.
  intros Hrun Hc (m & -> & Hin)%list_elem_of_fmap.
  destruct (run_queries_invariant server qs init r self Hrun) as [Hinv _];
    [by intros ??|].
  destruct (Hinv ms m Hc Hin) as [e He]. exists e. split; [done|].
  assert (Hv : values_of (metric_name m) ms ≠ []).
  { unfold values_of. intros Hnil%fmap_nil_inv.
    assert (Hm : m ∈ filter (λ m', metric_name m' = metric_name m) ms)
      by by apply list_elem_of_filter.
    rewrite Hnil in Hm. by apply elem_of_nil in Hm. }
  split; [done|]. intros server'. unfold show_metric_details.
  rewrite (ensure_cache_hit float server' self ms Hc);
    [|intros ->; by apply elem_of_nil in Hin].
  unfold details_lines. rewrite He.
  by destruct (values_of (metric_name m) ms).
Qed.

(** *** A query that raises *)

(** X12. A query raises only while metrics_cache is None or empty, and
    then leaves metrics_cache as it was and counts one request. The
    exception is RequestException when the request failed, and otherwise
    the IndexError of a HELP or TYPE line without text in the answer: the
    ValueError of a bad sample line never reaches the caller. *)
Theorem failed_query_effect server q (self self' : explorer F) e :
  run_query float server q self = (Raise e, self') ->
  cache_truthy (metrics_cache self) = false
  ∧ metrics_cache self' = metrics_cache self
  ∧ requests self' = S (requests self)
  ∧ ((e = RequestException ∧ server (requests self) = None)
     ∨ (e = IndexError
        ∧ ∃ text line, server (requests self) = Some text
            ∧ line ∈ Py.split "010" text ∧ marker_without_text line)).
Proof.
  intros Hq.
  assert (He : ensure_cache float server self = (Raise e, self')).
  { destruct q; cbn [run_query] in Hq;
      unfold group_metrics, search_metrics, show_metric_details in Hq;
      destruct (ensure_cache float server self) as [[ms|e'] s'];
      congruence. }
  clear Hq. unfold ensure_cache in He.
  destruct (cache_truthy (metrics_cache self)); [done|]. split; [done|].
  unfold fetch_metrics in He.
  destruct (server (requests self)) as [text|].
  - destruct (parse float text (help_cache self)) as [[ms|e'] hc] eqn:Hp;
      [done|].
    injection He as <- <-. do 2 (split; [done|]). right.
    rewrite parse_of_lines in Hp.
    destruct (for_lines float _ _ (help_cache self)) as [[lo|e2] hc2] eqn:Hrun;
      [done|].
    injection Hp as <- <-.
    apply for_lines_raises in Hrun as (-> & line & Hin & Hm).
    split; [done|]. by exists text, line.
  - injection He as <- <-. do 2 (split; [done|]). by left.
Qed.

(** *** A session on an exporter that has metrics *)

Lemma run_queries_hit server qs (self : explorer F) ms :
  metrics_cache self = Some ms -> ms ≠ [] ->
  run_queries float server qs self
  = (Ok (answer_on ms (help_cache self) <$> qs), self).
Proof.
  intros Hc Hne. induction qs as [|q qs IH]; [done|].
  cbn [run_queries]. by rewrite (run_query_hit _ _ _ _ _ Hc Hne), IH.
Qed.

(** X13. When the first answer of the server parses to at least one
    sample, a whole session of queries on a new explorer sends that one
    request: every query is answered from the samples and the metadata of
    the first answer, whatever the server would answer later. *)
Theorem session_uses_first_answer server text ms hc (q : query) qs :
  server 0 = Some text ->
  parse float text ∅ = (Ok ms, hc) ->
  ms ≠ [] ->
  run_queries float server (q :: qs) init
  = (Ok (answer_on ms hc <$> q :: qs), Explorer (Some ms) hc 1).
Proof.
  intros Hs Hp Hne. cbn [run_queries].
  assert (Hq : run_query float server q init
               = (Ok (answer_on ms hc q), Explorer (Some ms) hc 1)).
  { destruct q; cbn [run_query answer_on];
      unfold group_metrics, search_metrics, show_metric_details,
        ensure_cache, fetch_metrics;
      cbn [init metrics_cache help_cache requests cache_truthy];
      by rewrite Hs, Hp. }
  rewrite Hq, (run_queries_hit server qs _ ms); done.
Qed.

End Explorer_more.


(** ** Further properties of the queries *)

Lemma occurs_trans a b c : occurs a b -> occurs b c -> occurs a c.
Proof.
  intros (x & y & ->) (u & w & ->). exists (u +:+ x), (y +:+ w).
  by rewrite !append_assoc'.
Qed.

Lemma lower_char_idempotent c :
  Py.lower_char (Py.lower_char c) = Py.lower_char c.
Proof. by destruct c as [[] [] [] [] [] [] [] []]. Qed.

Lemma lower_idempotent s : Py.lower (Py.lower s) = Py.lower s.
Proof.
  induction s as [|c s IH]; [done|].
  cbn [Py.lower]. by rewrite lower_char_idempotent, IH.
Qed.

Lemma items_get_set {V : Type} k (v : V) d p :
  items_get p (items_set k v d)
  = if decide (k = p) then Some v else items_get p d.
Proof.
  induction d as [|[k' v'] d IH]; cbn [items_get items_set].
  - case_bool_decide; by case_decide.
  - case_bool_decide as Hk; cbn [items_get].
    + subst k'. case_bool_decide; by case_decide.
    + case_bool_decide as Hp; [|done].
      subst p. by rewrite decide_False by done.
Qed.

Lemma items_get_keys {V : Type} k (d : list (string * V)) :
  items_get k d = None ↔ k ∉ d.*1.
Proof.
  induction d as [|[k' v'] d IH]; cbn [items_get].
  - split; [intros _; apply not_elem_of_nil|done].
  - rewrite fmap_cons, not_elem_of_cons. cbn [fst].
    case_bool_decide as Hk; [|rewrite IH]; naive_solver.
Qed.

Lemma items_set_keys {V : Type} k (v : V) d :
  (items_set k v d).*1 = if decide (k ∈ d.*1) then d.*1 else d.*1 ++ [k].
Proof.
  induction d as [|[k' v'] d IH]; cbn [items_set].
  - rewrite decide_False by apply not_elem_of_nil. done.
  - rewrite fmap_cons. cbn [fst]. case_bool_decide as Hk.
    + subst k'. rewrite decide_True by (apply elem_of_cons; auto). done.
    + rewrite fmap_cons, IH. cbn [fst].
      destruct (decide (k ∈ d.*1)) as [Hin|Hnin].
      * rewrite decide_True by (apply elem_of_cons; auto). done.
      * rewrite decide_False; [done|].
        rewrite elem_of_cons. naive_solver.
Qed.

Section Queries_more.

Context {F : Type}.
Variable float : string -> option F.

Lemma search_loop_names term (ms : list (metric F)) name :
  name ∈ (λ r, r.1.1) <$> search_loop term ms ↔
    ∃ m, m ∈ ms ∧ metric_name m = name ∧ matches term m = true.
Proof.
  rewrite (search_loop_first_matches float), <- list_fmap_compose.
  change ((λ r : string * string * F, r.1.1) ∘ triple)
    with (@metric_name F).
  unfold first_matches. rewrite first_by_keys, list_elem_of_fmap. split.
  - intros (m & -> & [Hm Hin]%list_elem_of_filter). by exists m.
  - intros (m & Hin & <- & Hm). exists m. split; [done|].
    by apply list_elem_of_filter.
Qed.

(** X14. A term that occurs in another term, case apart, finds every name
    that the other term finds: to lengthen a term can only narrow the
    result. *)
Theorem shorter_term_finds_more (ms : list (metric F)) t1 t2 name :
  occurs (Py.lower t1) (Py.lower t2) ->
  name ∈ (λ r, r.1.1) <$> search_loop t2 ms ->
  name ∈ (λ r, r.1.1) <$> search_loop t1 ms.
Proof.
  intros Ho. rewrite !search_loop_names.
  intros (m & Hin & Hn & Hm). exists m. split; [done|]. split; [done|].
  unfold matches in *. apply orb_true_iff in Hm. apply orb_true_iff.
  rewrite !contains_occurs in *.
  destruct Hm as [Hm|Hm]; [left|right]; by eapply occurs_trans.
Qed.

(** X15. The case of the letters of the term does not count: two terms
    with the same lower case form give the same result, and so do a term
    and its lower case form. *)
Theorem search_ignores_case_of_term (ms : list (metric F)) :
  (∀ t1 t2, Py.lower t1 = Py.lower t2 ->
            search_loop t1 ms = search_loop t2 ms)
  ∧ (∀ t, search_loop (Py.lower t) ms = search_loop t ms).
Proof.
  assert (H : ∀ t1 t2, Py.lower t1 = Py.lower t2 ->
                       search_loop t1 ms = search_loop t2 ms).
  { intros t1 t2 Ht. unfold search_loop. f_equal.
    assert (Hstep : ∀ acc (m : metric F),
      search_step t1 acc m = search_step t2 acc m).
    { intros acc m. unfold search_step, matches. by rewrite Ht. }
    generalize (@nil (string * string * F), (∅ : gset string)).
    induction ms as [|m ms IH]; intros acc; [done|].
    cbn [foldl]. by rewrite Hstep, IH. }
  split; [done|]. intros t. apply H, lower_idempotent.
Qed.

(** *** The order of the groups *)

Lemma group_items_spec (ms : list (metric F)) :
  (∀ p, items_get p (group_items ms) = group_loop ms !! p)
  ∧ (group_items ms).*1
    = first_by id (group_of <$> (metric_name <$> ms)).
Proof.
  unfold group_items, group_loop.
  induction ms as [|m ms [IHget IHkeys]] using rev_ind; [done|].
  rewrite !foldl_snoc, !fmap_app.
  set (al := foldl group_items_step [] ms) in *.
  set (gm := foldl group_step ∅ ms) in *.
  unfold group_items_step, group_step.
  set (g := group_of (metric_name m)).
  change (group_of <$> (metric_name <$> [m])) with [g].
  set (al1 := match items_get g al with
              | Some _ => al
              | None => items_set g [] al
              end).
  set (gm1 := match gm !! g with
              | Some _ => gm
              | None => <[g := []]> gm
              end).
  assert (Hget1 : ∀ p, items_get p al1 = gm1 !! p).
  { intros p. unfold al1, gm1. rewrite <- IHget.
    destruct (items_get g al) eqn:Hg; [apply IHget|].
    rewrite items_get_set, lookup_insert, IHget. done. }
  assert (Hkeys1 : al1.*1
    = first_by id ((group_of <$> (metric_name <$> ms)) ++ [g])).
  { rewrite first_by_snoc, list_fmap_id. cbn [id].
    rewrite <- (list_fmap_id (first_by id _)) in IHkeys.
    assert (Hin : g ∈ al.*1 ↔ g ∈ group_of <$> (metric_name <$> ms)).
    { rewrite IHkeys, (first_by_keys id). by rewrite list_fmap_id. }
    unfold al1. destruct (items_get g al) eqn:Hg.
    - assert (g ∈ al.*1).
      { destruct (decide (g ∈ al.*1)) as [|Hn]; [done|].
        apply items_get_keys in Hn. congruence. }
      rewrite decide_True by by apply Hin.
      by rewrite IHkeys, list_fmap_id.
    - apply items_get_keys in Hg.
      rewrite items_set_keys, decide_False by done.
      rewrite decide_False by (by rewrite <- Hin).
      by rewrite IHkeys, list_fmap_id. }
  assert (Hg1 : g ∈ al1.*1).
  { rewrite Hkeys1, <- (list_fmap_id (first_by id _)), (first_by_keys id).
    rewrite list_fmap_id, elem_of_app, list_elem_of_singleton. by right. }
  rewrite Hget1. case_bool_decide; [done|]. split.
  - intros p. by rewrite items_get_set, lookup_insert, Hget1.
  - by rewrite items_set_keys, decide_True.
Qed.

(** X16. The groups are listed in the order in which their prefixes first
    occur among the samples, each prefix once, and the names listed under
    a prefix are those that group_metrics gives for it. *)
Theorem groups_listed_in_first_seen_order (ms : list (metric F)) :
  (group_items ms).*1 = first_by id (group_of <$> (metric_name <$> ms))
  ∧ NoDup (group_items ms).*1
  ∧ (∀ p, items_get p (group_items ms) = group_loop ms !! p)
  ∧ (∀ p names, (p, names) ∈ group_items ms ->
                group_loop ms !! p = Some names).
Proof.
  destruct (group_items_spec ms) as [Hget Hkeys].
  assert (Hnd : NoDup (group_items ms).*1).
  { rewrite Hkeys, <- (list_fmap_id (first_by id _)).
    apply first_by_NoDup. }
  repeat split; try done.
  intros p names Hin. rewrite <- Hget. clear Hget Hkeys.
  induction (group_items ms) as [|[k v] d IH]; [by apply elem_of_nil in Hin|].
  rewrite fmap_cons in Hnd. apply NoDup_cons in Hnd as [Hk Hnd].
  cbn [items_get]. apply elem_of_cons in Hin as [[= <- <-]|Hin].
  - by rewrite bool_decide_true.
  - rewrite bool_decide_false; [by apply IH|].
    intros ->. apply Hk. cbn. apply list_elem_of_fmap. by exists (p, names).
Qed.

End Queries_more.


(** ** Properties of the menu *)

Lemma take_str_length n s :
  String.length (Py.take_str n s) = Nat.min n (String.length s).
Proof.
  revert s. induction n as [|n IH]; intros s; [done|].
  destruct s as [|c s]; [done|]. cbn. by rewrite IH.
Qed.

(** X17. The description shown for a search result is the help text itself
    when it has at most 100 characters, and otherwise its first 100
    characters followed by three dots: it never has more than 103
    characters and always begins like the help text. *)
Theorem description_is_bounded (help_text : string) :
  (String.length (describe help_text) ≤ 103)%nat
  ∧ ((String.length help_text ≤ 100)%nat -> describe help_text = help_text)
  ∧ ((100 < String.length help_text)%nat ->
       describe help_text = Py.take_str 100 help_text +:+ "..."
       ∧ String.length (describe help_text) = 103)
  ∧ Py.take_str 100 (describe help_text) = Py.take_str 100 help_text.
Proof.
  unfold describe.
  destruct (Nat.ltb_spec 100 (String.length help_text)) as [Hlt|Hle].
  - assert (Hl : String.length (Py.take_str 100 help_text) = 100)
      by (rewrite take_str_length; lia).
    split; [rewrite append_length, Hl; cbn; lia|].
    split; [lia|]. split.
    + intros _. split; [done|]. rewrite append_length, Hl. done.
    + rewrite <- Hl at 1. by rewrite take_str_app.
  - split; [lia|]. split; [done|]. split; [lia|done].
Qed.

Section Menu_properties.

Context {F : Type}.
Variable float : string -> option F.
Variable server : nat -> option string.

Lemma ensure_cache_raises (self self' : explorer F) e :
  ensure_cache float server self = (Raise e, self') ->
  (e = RequestException ∨ e = IndexError)
  ∧ cache_truthy (metrics_cache self') = false.
Proof.
  unfold ensure_cache.
  destruct (cache_truthy (metrics_cache self)) eqn:Hc; [done|].
  unfold fetch_metrics. destruct (server (requests self)) as [text|].
  - rewrite parse_of_lines.
    destruct (for_lines float _ _ (help_cache self)) as [[lo|e'] hc] eqn:Hrun;
      [done|].
    intros [= <- <-]. apply for_lines_raises in Hrun as [-> _]. auto.
  - intros [= <- <-]. auto.
Qed.

Lemma search_metrics_state term (self : explorer F) :
  (search_metrics float server term self).2
  = (ensure_cache float server self).2
  ∧ ∀ e self', search_metrics float server term self = (Raise e, self') ->
      ensure_cache float server self = (Raise e, self').
Proof.
  unfold search_metrics.
  destruct (ensure_cache float server self) as [[ms|e] s];
    (split; [done|intros e' s' H; by inversion H]).
Qed.

Lemma show_metric_details_state name (self : explorer F) :
  (show_metric_details float server name self).2
  = (ensure_cache float server self).2
  ∧ ∀ e self', show_metric_details float server name self = (Raise e, self') ->
      ensure_cache float server self = (Raise e, self').
Proof.
  unfold show_metric_details.
  destruct (ensure_cache float server self) as [[ms|e] s];
    (split; [done|intros e' s' H; by inversion H]).
Qed.

Lemma session_end_lift inputs more (self self1 self' : explorer F) e :
  help_cache self ⊆ help_cache self1 ->
  (∀ i, i ∈ inputs -> i ∈ more) ->
  session_end_facts inputs self1 e self' ->
  session_end_facts more self e self'.
Proof.
  intros Hg Hsub (Hq & Hc & Hm). split; [|split]; [auto..|by etrans].
Qed.

Lemma session_end_crash inputs (self self' : explorer F) x :
  ensure_cache float server self = (Raise x, self') ->
  session_end_facts inputs self (Crash x) self'.
Proof.
  intros He. split; [done|]. split.
  - intros ? [= <-]. by eapply ensure_cache_raises.
  - pose proof (ensure_cache_metadata_grows float server self) as Hg.
    by rewrite He in Hg.
Qed.

Lemma interactive_end n : ∀ inputs (self : explorer F) out e self',
  (length inputs ≤ n)%nat ->
  interactive float server inputs self = (out, e, self') ->
  session_end_facts inputs self e self'.
Proof.
  induction n as [|n IH]; intros inputs self out e self' Hlen.
  { destruct inputs; [|cbn in Hlen; lia].
    intros [= _ <- <-]. by split. }
  destruct inputs as [|choice rest]; [intros [= _ <- <-]; by split|].
  cbn in Hlen. cbn [interactive].
  destruct (String.eqb choice "1").
  { pose proof (ensure_cache_metadata_grows float server self) as Hg.
    destruct (ensure_cache float server self) as [[ms|x] self1] eqn:He.
    - destruct (interactive float server rest self1) as [[out1 e1] self2] eqn:Hr.
      intros [= _ <- <-]. apply (session_end_lift rest _ _ self1); [done| |].
      + intros i ?. apply elem_of_cons. by right.
      + eapply IH; [|done]. lia.
    - intros [= _ <- <-]. by apply session_end_crash. }
  destruct (String.eqb choice "2").
  { destruct rest as [|term rest']; [intros [= _ <- <-]; by split|].
    destruct (search_metrics_state term self) as [Hst Hraise].
    pose proof (ensure_cache_metadata_grows float server self) as Hg.
    rewrite <- Hst in Hg.
    destruct (search_metrics float server term self) as [[res|x] self1].
    - destruct (interactive float server rest' self1)
        as [[out1 e1] self2] eqn:Hr.
      intros [= _ <- <-]. apply (session_end_lift rest' _ _ self1); [done| |].
      + intros i ?. apply elem_of_cons. right. apply elem_of_cons. by right.
      + eapply IH; [|done]. cbn in Hlen. lia.
    - intros [= _ <- <-]. by apply session_end_crash, Hraise. }
  destruct (String.eqb choice "3").
  { pose proof (ensure_cache_metadata_grows float server self) as Hg.
    destruct (ensure_cache float server self) as [[ms|x] self1] eqn:He;
      [|intros [= _ <- <-]; by apply session_end_crash].
    destruct rest as [|name rest']; [intros [= _ <- <-]; by split|].
    destruct (show_metric_details_state name self1) as [Hst Hraise].
    pose proof (ensure_cache_metadata_grows float server self1) as Hg1.
    rewrite <- Hst in Hg1.
    destruct (show_metric_details float server name self1)
      as [[lines|x] self2].
    - destruct (interactive float server rest' self2)
        as [[out1 e1] self3] eqn:Hr.
      intros [= _ <- <-].
      apply (session_end_lift rest' _ _ self2); [by etrans| |].
      + intros i ?. apply elem_of_cons. right. apply elem_of_cons. by right.
      + eapply IH; [|done]. cbn in Hlen. lia.
    - intros [= _ <- <-].
      apply (session_end_lift [] _ _ self1); [done| |].
      + by intros i ?%elem_of_nil.
      + by apply session_end_crash, Hraise. }
  destruct (String.eqb_spec choice "4") as [->|_].
  { intros [= _ <- <-]. split; [|by split].
    intros _. apply elem_of_cons. by left. }
  destruct (interactive float server rest self) as [[out1 e1] self1] eqn:Hr.
  intros [= _ <- <-]. apply (session_end_lift rest _ _ self); [done| |].
  - intros i ?. apply elem_of_cons. by right.
  - eapply IH; [|done]. lia.
Qed.

(** X18. However a session of the menu goes: it ends normally only if the
    user typed 4; when it ends with an exception of a query, the exception
    is the one the request raised or the IndexError of the parse (nothing
    raised in the try block of a sample line ends a session), and
    metrics_cache is still None or empty; and the session removed or
    changed no entry of help_cache. *)
Theorem how_a_session_ends inputs (self : explorer F) out e self' :
  interactive float server inputs self = (out, e, self') ->
  (e = Quit -> "4" ∈ inputs)
  ∧ (∀ x, e = Crash x ->
       (x = RequestException ∨ x = IndexError)
       ∧ cache_truthy (metrics_cache self') = false)
  ∧ help_cache self ⊆ help_cache self'.
Proof. intros H. by eapply (interactive_end (length inputs)). Qed.

(** X19. While the answers of the server give no sample, the menu entry 3
    sends two requests for one lookup: one before it asks for the name and
    one more in show_metric_details. *)
Theorem details_entry_asks_twice (self : explorer F) text hc name :
  cache_truthy (metrics_cache self) = false ->
  server (requests self) = Some text ->
  parse float text (help_cache self) = (Ok [], hc) ->
  requests (interactive float server ["3"; name] self).2
  = S (S (requests self)).
Proof.
  intros Hc Hs Hp. cbn [interactive String.eqb Ascii.eqb Bool.eqb].
  change (String.eqb "3" "1") with false.
  change (String.eqb "3" "2") with false.
  change (String.eqb "3" "3") with true. cbn iota.
  assert (He : ensure_cache float server self
               = (Ok [], Explorer (Some []) hc (S (requests self)))).
  { unfold ensure_cache, fetch_metrics. by rewrite Hc, Hs, Hp. }
  rewrite He.
  set (self1 := Explorer (Some []) hc (S (requests self))).
  destruct (show_metric_details_state name self1) as [Hst _].
  pose proof (ensure_cache_miss float server self1 eq_refl) as Hreq.
  rewrite <- Hst in Hreq.
  by destruct (show_metric_details float server name self1)
    as [[lines|x] self2].
Qed.

End Menu_properties.


(** ** Closed runs *)

(** C6 as it is written fails on a value with an escaped quote: the value
    of the code ends at the escaped quote, the value up to the first
    unescaped quote goes on to the end of the label. *)
Lemma escaped_quote_counterexample :
  parse_labelled (sq "m{a='b\'c'}") = Ok ("m", {["a" := "b\"]})
  ∧ (span_unescaped (sq "b\'c'}")).1 = sq "b\'c"
  ∧ "b\" ≠ sq "b\'c".
Proof. split; [|split]; [by vm_compute..|]. by vm_compute. Qed.

(** C2 as it is written fails when the first parse gives no sample: the
    first query stores the empty list, and the second query sends a second
    request and answers from the second document. *)
Lemma empty_first_parse_counterexample :
  let server := list_server [EmptyString; "x 1"] in
  let first := group_metrics float_digits server init in
  first = (Ok ∅, Explorer (Some []) ∅ 1)
  ∧ search_metrics float_digits server "x" first.2
    = (Ok [("x", EmptyString, 1)],
       Explorer (Some [Metric "x" 1 ∅ EmptyString])
                {["x" := Meta EmptyString EmptyString]} 2).
Proof. split; vm_compute; reflexivity. Qed.


(** C9 as it is written fails when the last closing brace comes before the
    first opening brace: the line is not skipped, it gives a sample. *)
Lemma closing_brace_first_counterexample :
  sample_line "a}b{c 1" = true
  ∧ Py.split " " "a}b{c 1" = ["a}b{c"; "1"]
  ∧ Py.index "{" "a}b{c" = Some 3
  ∧ Py.rindex "}" "a}b{c" = Some 1
  ∧ parse float_digits "a}b{c 1" ∅
    = (Ok [Metric "a}b" 1 ∅ EmptyString],
       {["a}b" := Meta EmptyString EmptyString]}).
Proof. repeat split; vm_compute; reflexivity. Qed.

(** The run of C1 on a whole explorer: the first query of a document with
    a HELP line without text ends with IndexError and stores nothing, while
    a sample line without value in the same place is passed over. *)
Example help_without_text_run :
  group_metrics float_digits
    (constant_server ("# HELP x" +:+ nl +:+ "x 1")) init
  = (Raise IndexError, Explorer None ∅ 1)
  ∧ search_metrics float_digits
      (constant_server ("x" +:+ nl +:+ "x 1")) EmptyString init
    = (Ok [("x", EmptyString, 1)],
       Explorer (Some [Metric "x" 1 ∅ EmptyString])
                {["x" := Meta EmptyString EmptyString]} 1).
Proof. split; vm_compute; reflexivity. Qed.

(** *** Instances of the theorems *)

Lemma marker_without_text_aborts_witness :
  for_lines float_digits (["x 1"] ++ ("# HELP " +:+ "x") :: ["y 2"])
    (Locals [] EmptyString EmptyString) ∅
  = (Raise IndexError, {["x" := Meta EmptyString EmptyString]})
  ∧ for_lines float_digits (["x 1"] ++ ("# TYPE " +:+ "x") :: ["y 2"])
      (Locals [] EmptyString EmptyString) ∅
    = (Raise IndexError, {["x" := Meta EmptyString EmptyString]}).
Proof.
  apply (marker_without_text_aborts float_digits ["x 1"] ["y 2"] "x"
           (Locals [] EmptyString EmptyString)
           (Locals [Metric "x" 1 ∅ EmptyString] EmptyString EmptyString)).
  - vm_compute. reflexivity.
  - reflexivity.
Defined.


Lemma unclosed_label_block_witness :
  for_lines float_digits ["a{b 1"; "c 2"]
    (Locals [] EmptyString EmptyString) ∅
  = for_lines float_digits ["c 2"] (Locals [] EmptyString EmptyString) ∅.
Proof.
  apply (unclosed_label_block float_digits "a{b 1" "a{b" "1");
    reflexivity.
Defined.

Lemma help_follows_running_context_witness :
  parse float_digits doc_c3 ∅
  = (Ok [Metric "x" 1 ∅ "first"; Metric "x" 2 ∅ "second"],
     {["x" := Meta "first" "counter"]}).
Proof.
  apply (help_follows_running_context float_digits); reflexivity.
Defined.

Lemma label_block_decoding_witness :
  parse_sample float_digits
    (("m" +:+ String "{" (sq "a='1',b='2',a='3'" +:+ String "}" EmptyString))
       +:+ String " " "7")
  = Ok ("m", 7,
        foldl (λ (lbls : gmap string string) p, <[p.1 := p.2]> lbls) ∅
              (findall (sq "a='1',b='2',a='3'"))).
Proof.
  apply (label_block_decoding float_digits); reflexivity.
Defined.


Lemma search_empty_term_witness :
  let ms := [Metric "cpu" 1 ∅ "seconds"; Metric "cpu" 2 ∅ "other";
             Metric "mem" 3 ∅ "bytes"] in
  let self := Explorer (Some ms) ∅ 1 in
  search_metrics float_digits (constant_server EmptyString) EmptyString self
  = (Ok (triple <$> first_by metric_name ms), self).
Proof.
  intros ms self.
  apply (search_empty_term float_digits (constant_server EmptyString)
           self ms); [reflexivity|discriminate].
Defined.

Lemma groups_by_leading_token_witness :
  let ms := [Metric "node_cpu_seconds_total" 1 ∅ EmptyString;
             Metric "node_memory_bytes" 2 ∅ EmptyString;
             Metric "go_gc_duration" 3 ∅ EmptyString] in
  let self := Explorer (Some ms) ∅ 1 in
  group_metrics float_digits (constant_server EmptyString) self
    = (Ok (group_loop ms), self)
  ∧ group_loop ms
    = {[ "node" := ["node_cpu_seconds_total"; "node_memory_bytes"];
         "go" := ["go_gc_duration"] ]}.
Proof.
  intros ms self.
  destruct (groups_by_leading_token float_digits
              (constant_server EmptyString) self ms)
    as (Hrun & _ & _ & _ & Hex); [reflexivity|discriminate|].
  split; [exact Hrun|]. apply Hex. reflexivity.
Defined.

Lemma details_of_missing_metric_witness :
  show_metric_details float_digits (constant_server "x 1")
    "missing_metric" init
  = (Ok [PDetailsFor "missing_metric"; PRule; PCurrentValues; PNoValues],
     Explorer (Some [Metric "x" 1 ∅ EmptyString])
              {["x" := Meta EmptyString EmptyString]} 1).
Proof.
  apply (details_of_missing_metric float_digits "x 1"
           [Metric "x" 1 ∅ EmptyString]
           {["x" := Meta EmptyString EmptyString]} "missing_metric" 0).
  - vm_compute. reflexivity.
  - vm_compute. intros H. inversion H as [|? ? ? H']. inversion H'.
Defined.

Lemma cached_list_is_reused_witness :
  let ms := [Metric "x" 1 ∅ EmptyString] in
  let self := Explorer (Some ms) ∅ 1 in
  run_queries float_digits (list_server []) [QGroups; QSearch "x"; QDetails "x"]
    self
  = (Ok (answer_on ms ∅ <$> [QGroups; QSearch "x"; QDetails "x"]), self).
Proof.
  intros ms self.
  apply (cached_list_is_reused float_digits); [reflexivity|discriminate].
Defined.

(** *** Instances of the further properties *)

Lemma metadata_names_after_parse_witness :
  is_Some (({["x" := Meta EmptyString EmptyString]} : gmap string meta) !! "x")
  ↔ is_Some ((∅ : gmap string meta) !! "x")
    ∨ "x" ∈ metric_name <$> [Metric "x" 1 ∅ EmptyString].
Proof.
  apply (metadata_names_after_parse float_digits "x 1" ∅
           [Metric "x" 1 ∅ EmptyString]
           {["x" := Meta EmptyString EmptyString]}).
  vm_compute. reflexivity.
Defined.

Lemma parse_again_changes_nothing_witness :
  parse float_digits "x 1" {["x" := Meta EmptyString EmptyString]}
  = (Ok [Metric "x" 1 ∅ EmptyString],
     {["x" := Meta EmptyString EmptyString]}).
Proof.
  apply (proj2 (parse_again_changes_nothing float_digits "x 1") ∅).
  vm_compute. reflexivity.
Defined.

Lemma comments_and_blank_lines_are_inert_witness :
  for_lines float_digits (["x 1"] ++ "# scraped at noon" :: ["y 2"])
    (Locals [] EmptyString EmptyString) ∅
  = for_lines float_digits (["x 1"] ++ ["y 2"])
      (Locals [] EmptyString EmptyString) ∅
  ∧ for_lines float_digits (["x 1"] ++ "  " :: ["y 2"])
      (Locals [] EmptyString EmptyString) ∅
    = for_lines float_digits (["x 1"] ++ ["y 2"])
        (Locals [] EmptyString EmptyString) ∅.
Proof.
  destruct (comments_and_blank_lines_are_inert float_digits)
    as (Hcomment & Hblank & _).
  split; [apply Hcomment|apply Hblank]; reflexivity.
Defined.

Lemma sample_names_are_clean_witness :
  Py.char_in " " "x" = false
  ∧ Py.char_in "{" "x" = false
  ∧ Py.char_in "010" "x" = false
  ∧ ∃ line r, line ∈ Py.split "010" (sq "x{a='b'} 1") ∧ line = "x" +:+ r.
Proof.
  apply (sample_names_are_clean float_digits (sq "x{a='b'} 1") ∅
           [Metric "x" 1 {["a" := "b"]} EmptyString]
           {["x" := Meta EmptyString EmptyString]}
           (Metric "x" 1 {["a" := "b"]} EmptyString)).
  - vm_compute. reflexivity.
  - apply elem_of_cons. left. reflexivity.
Defined.

Lemma accepted_lines_have_one_space_witness :
  count_char " " "x 1" = 1
  ∧ for_lines float_digits (["a 1"] ++ "x 1 1700000000" :: ["b 2"])
      (Locals [] EmptyString EmptyString) ∅
    = for_lines float_digits (["a 1"] ++ ["b 2"])
        (Locals [] EmptyString EmptyString) ∅.
Proof.
  destruct (accepted_lines_have_one_space float_digits) as [Hone Hdrop].
  split.
  - apply (Hone "x 1" "x" 1 ∅). reflexivity.
  - apply Hdrop; [reflexivity|]. vm_compute. discriminate.
Defined.

Lemma labels_come_from_written_pairs_witness :
  Py.truthy "a" = true
  ∧ all_chars Py.is_word "a" = true
  ∧ all_chars Py.not_dquote "b" = true
  ∧ occurs (pair_text "a" "b") (sq "x{a='b'} 1").
Proof.
  apply (labels_come_from_written_pairs float_digits (sq "x{a='b'} 1")
           "x" 1 {["a" := "b"]} "a" "b").
  - vm_compute. reflexivity.
  - vm_compute. reflexivity.
Defined.

Lemma label_block_without_quote_witness :
  parse_sample float_digits
    (("x" +:+ String "{" ("a=b" +:+ String "}" EmptyString))
       +:+ String " " "1")
  = Ok ("x", 1, ∅).
Proof.
  apply (label_block_without_quote float_digits "x" "a=b" EmptyString "1" 1);
    reflexivity.
Defined.

Lemma parse_raises_only_on_marker_without_text_witness :
  ∃ hc', parse float_digits ("x 1" +:+ nl +:+ "# TYPE x") ∅
         = (Raise IndexError, hc').
Proof.
  destruct (parse_raises_only_on_marker_without_text float_digits
              ("x 1" +:+ nl +:+ "# TYPE x") ∅) as (_ & Hraise & _).
  apply (Hraise "# TYPE x").
  - apply elem_of_cons. right. apply elem_of_cons. left. reflexivity.
  - split; [right|]; reflexivity.
Defined.

Lemma every_cached_sample_has_metadata_witness :
  cached_names_have_metadata
    (Explorer (Some [Metric "x" 1 ∅ EmptyString])
              {["x" := Meta EmptyString EmptyString]} 1)
  ∧ (1 ≤ length [QGroups; QSearch "x"])%nat.
Proof.
  apply (every_cached_sample_has_metadata float_digits (constant_server "x 1")
           [QGroups; QSearch "x"]
           (Ok [AGroups {["x" := ["x"]]}; AFound [("x", EmptyString, 1)]])).
  vm_compute. reflexivity.
Defined.

Lemma details_of_present_metric_witness :
  let ms := [Metric "x" 1 ∅ "about x"] in
  let self := Explorer (Some ms) {["x" := Meta "about x" "gauge"]} 1 in
  ∃ e, help_cache self !! "x" = Some e
    ∧ values_of "x" ms ≠ []
    ∧ ∀ server',
        show_metric_details float_digits server' "x" self
        = (Ok ([PDetailsFor "x"; PRule; PType (meta_type e);
                PHelp (meta_help e); PCurrentValues]
               ++ (print_value <$> values_of "x" ms)), self).
Proof.
  intros ms self.
  apply (details_of_present_metric float_digits
           (constant_server ("# HELP x about x" +:+ nl +:+ "# TYPE x gauge"
                             +:+ nl +:+ "x 1"))
           [QGroups] (Ok [AGroups {["x" := ["x"]]}]) self ms "x").
  - vm_compute. reflexivity.
  - reflexivity.
  - apply elem_of_cons. left. reflexivity.
Defined.

Lemma failed_query_effect_witness :
  cache_truthy (metrics_cache (init (F:=nat))) = false
  ∧ metrics_cache (Explorer (F:=nat) None ∅ 1) = metrics_cache init
  ∧ requests (Explorer (F:=nat) None ∅ 1) = S (requests (init (F:=nat)))
  ∧ ((IndexError = RequestException
      ∧ constant_server "# HELP x" (requests (init (F:=nat))) = None)
     ∨ (IndexError = IndexError
        ∧ ∃ text line,
            constant_server "# HELP x" (requests (init (F:=nat))) = Some text
            ∧ line ∈ Py.split "010" text ∧ marker_without_text line)).
Proof.
  apply (failed_query_effect float_digits (constant_server "# HELP x")
           QGroups init (Explorer None ∅ 1) IndexError).
  vm_compute. reflexivity.
Defined.

Lemma session_uses_first_answer_witness :
  run_queries float_digits (list_server ["x 1"])
    [QSearch "x"; QGroups; QDetails "x"] init
  = (Ok (answer_on [Metric "x" 1 ∅ EmptyString]
                   {["x" := Meta EmptyString EmptyString]}
           <$> [QSearch "x"; QGroups; QDetails "x"]),
     Explorer (Some [Metric "x" 1 ∅ EmptyString])
              {["x" := Meta EmptyString EmptyString]} 1).
Proof.
  apply (session_uses_first_answer float_digits (list_server ["x 1"]) "x 1").
  - reflexivity.
  - vm_compute. reflexivity.
  - discriminate.
Defined.

Lemma shorter_term_finds_more_witness :
  "node_cpu" ∈ (λ r : string * string * nat, r.1.1)
     <$> search_loop "CPU" [Metric "node_cpu" 1 ∅ EmptyString;
                            Metric "node_mem" 2 ∅ EmptyString].
Proof.
  apply (shorter_term_finds_more float_digits
           [Metric "node_cpu" 1 ∅ EmptyString;
            Metric "node_mem" 2 ∅ EmptyString] "CPU" "node_cpu").
  - exists "node_", EmptyString. reflexivity.
  - vm_compute. apply elem_of_cons. left. reflexivity.
Defined.

Lemma search_ignores_case_of_term_witness :
  search_loop "Cpu" [Metric "node_cpu" 1 ∅ EmptyString]
  = search_loop "cPU" [Metric "node_cpu" 1 ∅ EmptyString].
Proof.
  apply (search_ignores_case_of_term [Metric "node_cpu" 1 ∅ EmptyString]).
  reflexivity.
Defined.

Lemma groups_listed_in_first_seen_order_witness :
  group_loop [Metric "node_cpu" 1 ∅ EmptyString;
              Metric "go_gc" 2 ∅ EmptyString;
              Metric "node_mem" 3 ∅ EmptyString] !! "node"
  = Some ["node_cpu"; "node_mem"].
Proof.
  apply (groups_listed_in_first_seen_order
           [Metric "node_cpu" 1 ∅ EmptyString;
            Metric "go_gc" 2 ∅ EmptyString;
            Metric "node_mem" 3 ∅ EmptyString]).
  vm_compute. constructor.
Defined.

Lemma description_is_bounded_witness :
  describe "CPU time" = "CPU time".
Proof.
  apply (proj1 (proj2 (description_is_bounded "CPU time"))). cbn. lia.
Defined.

Lemma how_a_session_ends_witness :
  (Quit = Quit -> "4" ∈ ["9"; "1"; "4"; "2"])
  ∧ (∀ x, Quit = Crash x ->
       (x = RequestException ∨ x = IndexError)
       ∧ cache_truthy
           (metrics_cache
              (Explorer (Some [Metric "x" 1 ∅ EmptyString])
                        {["x" := Meta EmptyString EmptyString]} 1)) = false)
  ∧ help_cache (init (F:=nat))
    ⊆ help_cache (Explorer (Some [Metric "x" 1 ∅ EmptyString])
                           {["x" := Meta EmptyString EmptyString]} 1).
Proof.
  apply (how_a_session_ends float_digits (constant_server "x 1")
           ["9"; "1"; "4"; "2"] init
           [SMenu; SMenu; SGroup "x" ["x"]; SMenu]).
  vm_compute. reflexivity.
Defined.

Lemma details_entry_asks_twice_witness :
  requests (interactive float_digits (constant_server "# nothing")
              ["3"; "x"] init).2
  = 2.
Proof.
  apply (details_entry_asks_twice float_digits (constant_server "# nothing")
           init "# nothing" ∅ "x"); reflexivity.
Defined.
